(** * WaitlistMailer (lib/index.ts): a shallow embedding and its properties

    The class [WaitlistMailer] of [lib/index.ts] keeps a [Set<string>] of
    e-mail addresses, validates additions with Joi, sends confirmation mails
    through a nodemailer transporter and reports what it does through
    [EventEmitter] events.

    Modelling choices, in the order they appear below.
    - JavaScript strings are [string]; every [ascii] stands for one UTF-16
      code unit below 256, so [\s] and [toLowerCase] are the JavaScript ones
      restricted to that range.
    - [String.prototype.replace] with a global regular expression is modelled
      for the two shapes of pattern the class builds: the literal
      [\[Company Name\]] and [{{\s*key\s*}}] for an identifier [key].  The
      replacement string goes through ECMAScript's GetSubstitution.  For a
      key that is not an identifier, and for the pattern the caller gives to
      [findEmailsByPattern], the regular-expression engine of the runtime is
      a parameter: it says whether the source compiles and what the
      replacement yields.
    - An object used as a record of strings is the list of its entries in
      the order [Object.entries] gives them: array indices first, in
      ascending order, then the other keys in the order of their creation.
    - [Set<string>] is a duplicate-free list in insertion order (the order
      [Array.from] and [for ... of] observe).
    - Arrays handed to callers live in a store ([gmap] from locations to
      contents), so that aliasing between two returned arrays can be stated.
      The [Set] itself is private and no method returns it: it is a field of
      the state, not a cell of the store.
    - [saveWaitlist], [close] and [waitForInitialization] are not embedded;
      the properties below speak of the other eleven public methods.
    - Everything that is not code of the class (Joi, the SMTP transport, the
      file system, the Mongo and SQL drivers, the regular-expression engine)
      is a parameter of the section.
    - Methods are state transformers over a record holding the object's
      fields, the store and the chronological trace of observable effects
      (events emitted, mails handed to the transport, delays, file reads and
      backend commands).  [console.log] and [console.error] are not traced. *)

From Stdlib Require Import ZArith Lia Ascii.
From stdpp Require Import base gmap strings list.

Local Open Scope string_scope.
Local Open Scope Z_scope.
Local Open Scope list_scope.

(** ** JavaScript strings *)

Module JsString.

(** [\s] of a regular expression without the [u] flag, on code units below
    256: TAB, LF, VT, FF, CR, SPACE and NO-BREAK SPACE. *)
Definition isSpace (c : ascii) : bool :=
  let n := nat_of_ascii c in
  ((9 <=? n) && (n <=? 13))%nat || (n =? 32)%nat || (n =? 160)%nat.

Definition isDigit (c : ascii) : bool :=
  let n := nat_of_ascii c in ((48 <=? n) && (n <=? 57))%nat.

Definition isLetter (c : ascii) : bool :=
  let n := nat_of_ascii c in
  ((65 <=? n) && (n <=? 90))%nat || ((97 <=? n) && (n <=? 122))%nat.

(** The keys for which [new RegExp(`{{\\s*${key}\\s*}}`, 'g')] matches the
    key literally: identifiers made of letters, digits and [_] that do not
    start with a digit.  No regular-expression metacharacter and no white
    space occurs in them. *)
Definition isIdentStart (c : ascii) : bool :=
  isLetter c || (nat_of_ascii c =? 95)%nat.

Definition isIdentChar (c : ascii) : bool :=
  isIdentStart c || isDigit c.

Fixpoint allChars (p : ascii -> bool) (s : string) : bool :=
  match s with
  | EmptyString => true
  | String c r => p c && allChars p r
  end.

Definition isIdentifier (s : string) : bool :=
  match s with
  | EmptyString => false
  | String c r => isIdentStart c && allChars isIdentChar r
  end.

(** [stripPrefix p s] is what follows [p] in [s] when [s] starts with [p]. *)
Fixpoint stripPrefix (p s : string) : option string :=
  match p, s with
  | EmptyString, _ => Some s
  | String a p', String b s' =>
      if Ascii.eqb a b then stripPrefix p' s' else None
  | String _ _, EmptyString => None
  end.

(** Greedy [\s*]: the number of white-space units consumed and the rest. *)
Fixpoint skipSpaces (s : string) : nat * string :=
  match s with
  | String c r =>
      if isSpace c then let '(n, t) := skipSpaces r in (S n, t) else (O, s)
  | EmptyString => (O, s)
  end.

Fixpoint take (n : nat) (s : string) : string :=
  match n, s with
  | S k, String c r => String c (take k r)
  | _, _ => EmptyString
  end.

Fixpoint drop (n : nat) (s : string) : string :=
  match n, s with
  | S k, String _ r => drop k r
  | _, _ => s
  end.

(** A compiled pattern, as far as [replace] needs it: the length of the
    match that starts at the head of the given suffix, if there is one.
    Both patterns of the class only have non-empty matches. *)
Definition Matcher := string -> option nat.

(** [/\[Company Name\]/]. *)
Definition literal (p : string) : Matcher :=
  fun s => match stripPrefix p s with
           | Some _ => Some (String.length p)
           | None => None
           end.

(** [{{\s*key\s*}}] for an identifier [key].  The key starts with a
    character that is not white space and [}] is not white space, so the
    greedy [\s*] never has to give characters back. *)
Definition token (key : string) : Matcher :=
  fun s =>
    match stripPrefix "{{" s with
    | None => None
    | Some r1 =>
        let '(n1, r2) := skipSpaces r1 in
        match stripPrefix key r2 with
        | None => None
        | Some r3 =>
            let '(n2, r4) := skipSpaces r3 in
            match stripPrefix "}}" r4 with
            | None => None
            | Some _ => Some (2 + n1 + String.length key + n2 + 2)%nat
            end
        end
    end.

(** ECMAScript GetSubstitution for a pattern without capture groups:
    [$$] is a dollar sign, [$&] the matched text, [$`] what precedes the
    match and [$'] what follows it; [$n] and [$<] stay as they are because
    there is no group to refer to. *)
Fixpoint getSubstitution (matched before after repl : string) : string :=
  match repl with
  | EmptyString => EmptyString
  | String c tl =>
      if Ascii.eqb c "$" then
        match tl with
        | String d tl' =>
            if Ascii.eqb d "$" then
              String "$" (getSubstitution matched before after tl')
            else if Ascii.eqb d "&" then
              matched +:+ getSubstitution matched before after tl'
            else if Ascii.eqb d "`" then
              before +:+ getSubstitution matched before after tl'
            else if Ascii.eqb d "'" then
              after +:+ getSubstitution matched before after tl'
            else String c (getSubstitution matched before after tl)
        | EmptyString => String c EmptyString
        end
      else String c (getSubstitution matched before after tl)
  end.

(** The scan of [subject.replace(regex, repl)] for a global [regex]:
    [before] is the part of the subject already passed, [skip] the number
    of units of the current match still to be passed over. *)
Fixpoint replaceFrom (m : Matcher) (repl before : string) (skip : nat)
    (s : string) : string :=
  match s with
  | EmptyString => EmptyString
  | String c r =>
      match skip with
      | S k => replaceFrom m repl (before +:+ String c EmptyString) k r
      | O =>
          match m s with
          | Some (S len) =>
              getSubstitution (take (S len) s) before (drop (S len) s) repl
              +:+ replaceFrom m repl (before +:+ String c EmptyString) len r
          | _ =>
              String c
                (replaceFrom m repl (before +:+ String c EmptyString) O r)
          end
      end
  end.

Definition replace (m : Matcher) (repl subject : string) : string :=
  replaceFrom m repl EmptyString O subject.

(** [toLowerCase] on code units below 256: A-Z, and U+00C0 to U+00DE
    without the multiplication sign U+00D7, move up by 32. *)
Definition lowerUnit (c : ascii) : ascii :=
  let n := nat_of_ascii c in
  if ((65 <=? n) && (n <=? 90))%nat
     || ((192 <=? n) && (n <=? 222) && negb (n =? 215))%nat
  then ascii_of_nat (n + 32) else c.

Fixpoint toLowerCase (s : string) : string :=
  match s with
  | EmptyString => EmptyString
  | String c r => String (lowerUnit c) (toLowerCase r)
  end.

Fixpoint includes (s sub : string) : bool :=
  match stripPrefix sub s with
  | Some _ => true
  | None => match s with
            | EmptyString => false
            | String _ r => includes r sub
            end
  end.

End JsString.

(** ** [Set<string>]

    A JavaScript [Set] iterates in insertion order and holds no value twice:
    a list without duplicates, new members at the end. *)

Module JsSet.

Abbreviation t := (list string).

Definition has (x : string) (s : t) : bool := bool_decide (x ∈ s).

Definition add (x : string) (s : t) : t := if has x s then s else s ++ [x].

Definition delete (x : string) (s : t) : t :=
  filter (fun y => y <> x) s.

Definition clear (s : t) : t := [].

Definition size (s : t) : nat := length s.

(** [Array.from(set)]: the members in insertion order. *)
Definition toArray (s : t) : list string := s.

End JsSet.

(** ** Configuration and the object's fields *)

(** The storage tags ['local'], ['db'] and ['sql']. *)
Inductive Storage := storage_local | storage_db | storage_sql.

#[global] Instance Storage_eq_dec : EqDecision Storage.
Proof. solve_decision. Defined.

(** [MailConfig].  A field is [None] when the caller's object lacks it
    ([undefined] in JavaScript). *)
Record MailConfig := {
  host : option string;
  port : option Z;
  user : option string;
  pass : option string
}.

Inductive Dialect := postgres | mysql.

Record SqlConfig := {
  dialect : Dialect;
  sql_host : string;
  sql_port : Z;
  username : string;
  password : string;
  database : string
}.

(** [WaitlistMailerOptions]. *)
Record WaitlistMailerOptions := {
  opt_companyName : option string;
  opt_mongoUri : option string;
  opt_sqlConfig : option SqlConfig
}.

(** The options object given to [nodemailer.createTransport], which the
    transporter keeps as [transporter.options]. *)
Record TransportOptions := {
  t_host : option string;
  t_port : option Z;
  secure : bool;
  auth_user : option string;
  auth_pass : option string
}.

Record Transporter := { options : TransportOptions }.

(** [SendMailOptions] as [sendMail] builds it; the constant [headers] entry
    is left out. *)
Record SendMailOptions := {
  from : string;
  to : string;
  subject : string;
  html : string
}.

(** ** Events, effects and the state *)

Inductive Event :=
| onTransporterError (error : string)
| onTransporterReady
| onDbConnected
| onDbError (error : string)
| onSqlConnected
| onSqlError (error : string)
| onInitialized
| onError (email action error : string)
| onValidationError (email : string) (error : option string)
| onDuplicateEmail (email : string)
| onEmailAdded (email : string)
| onEmailRemoved (email : string)
| onWaitlistCleared
| onEmailSent (email info : string)
| onEmailRetry (email : string) (attempt : Z)
| onBulkConfirmationComplete (successCount total : nat).

(** The [createdAt] query of the Mongo branch of [countWaitlistByDate]. *)
Record MongoQuery := { gte : option Z; lte : option Z }.

(** The [where.createdAt] clause of the SQL branch. *)
Inductive SqlWhere :=
| whereAll
| whereBetween (startDate endDate : Z)
| whereGte (startDate : Z)
| whereLte (endDate : Z).

Inductive BackendCall :=
| MongoConnect (uri : string)
| MongoFind
| MongoFindRegex (pattern : string)
| MongoCountDocuments (q : MongoQuery)
| MongoCreate (email : string)
| MongoDeleteOne (email : string)
| MongoDeleteMany
| SqlAuthenticate
| SqlSync
| SqlFindAll
| SqlFindLike (pattern : string)
| SqlCount (w : SqlWhere)
| SqlCreate (email : string)
| SqlDestroy (email : string)
| SqlDestroyAll.

Inductive Effect :=
| Emit (e : Event)
| TransportVerify
| TransportSendMail (m : SendMailOptions)
| ReadFile (path : string)
| Sleep (ms : Z)
| SetTimeout (ms : Z)
| Backend (c : BackendCall).

Definition loc := nat.

Record State := {
  (* the fields of the object *)
  storage : Storage;
  waitlist : JsSet.t;
  transporter : Transporter;
  companyName : string;
  mongoUri : option string;
  sqlConnection : option SqlConfig;
  initialized : bool;
  (* the arrays handed to callers, and what has been observed so far *)
  heap : gmap loc (list string);
  trace : list Effect
}.

Definition set_waitlist (w : JsSet.t) (st : State) : State :=
  {| storage := storage st; waitlist := w; transporter := transporter st;
     companyName := companyName st; mongoUri := mongoUri st;
     sqlConnection := sqlConnection st; initialized := initialized st;
     heap := heap st; trace := trace st |}.

Definition set_initialized (b : bool) (st : State) : State :=
  {| storage := storage st; waitlist := waitlist st;
     transporter := transporter st; companyName := companyName st;
     mongoUri := mongoUri st; sqlConnection := sqlConnection st;
     initialized := b; heap := heap st; trace := trace st |}.

Definition set_heap (h : gmap loc (list string)) (st : State) : State :=
  {| storage := storage st; waitlist := waitlist st;
     transporter := transporter st; companyName := companyName st;
     mongoUri := mongoUri st; sqlConnection := sqlConnection st;
     initialized := initialized st; heap := h; trace := trace st |}.

Definition record (x : Effect) (st : State) : State :=
  {| storage := storage st; waitlist := waitlist st;
     transporter := transporter st; companyName := companyName st;
     mongoUri := mongoUri st; sqlConnection := sqlConnection st;
     initialized := initialized st; heap := heap st;
     trace := trace st ++ [x] |}.

(** JavaScript truthiness of an optional string: [undefined] and the empty
    string are falsy. *)
Definition truthy (o : option string) : bool :=
  match o with
  | Some s => negb (String.eqb s EmptyString)
  | None => false
  end.

(** [this.storage === 'db' && this.mongoUri] and
    [this.storage === 'sql' && this.sqlConnection]. *)
Definition usesMongo (st : State) : bool :=
  bool_decide (storage st = storage_db) && truthy (mongoUri st).

Definition usesSql (st : State) : bool :=
  bool_decide (storage st = storage_sql) && bool_decide (is_Some (sqlConnection st)).

(** How a promise of an external collaborator settles. *)
Inductive Settled (A : Type) :=
| Fulfilled (a : A)
| Rejected (reason : string).
Arguments Fulfilled {A} a.
Arguments Rejected {A} reason.

(** How a [new] expression completes. *)
Inductive Completion (A : Type) :=
| Returned (a : A)
| Threw (error : string).
Arguments Returned {A} a.
Arguments Threw {A} error.

(** ** The state monad of the methods *)

Definition M (A : Type) := State -> A * State.

Definition ret {A} (a : A) : M A := fun st => (a, st).

Definition bind {A B} (m : M A) (k : A -> M B) : M B :=
  fun st => let '(a, st1) := m st in k a st1.

Notation "x <- m ;; k" := (bind m (fun x => k))
  (at level 100, m at next level, right associativity).
Notation "m ;;; k" := (bind m (fun _ => k))
  (at level 100, right associativity).

Definition modify (f : State -> State) : M unit := fun st => (tt, f st).

Definition gets {A} (f : State -> A) : M A := fun st => (f st, st).

(** [this.emit(...)]: listeners are the callers' code; the event is traced. *)
Definition emit (e : Event) : M unit := modify (record (Emit e)).

Definition perform (x : Effect) : M unit := modify (record x).

(** [Array.from(...)] and array literals: a new array in the store. *)
Definition newArray (l : list string) : M loc :=
  fun st => let r := fresh (dom (heap st)) in (r, set_heap (<[r := l]> (heap st)) st).

(** The number of mails already handed to the transport. *)
Definition isSendMail (x : Effect) : bool :=
  match x with TransportSendMail _ => true | _ => false end.

Definition isReadFile (x : Effect) : bool :=
  match x with ReadFile _ => true | _ => false end.

Definition isBackend (x : Effect) : bool :=
  match x with Backend _ => true | _ => false end.

Definition occurrences (p : Effect -> bool) (st : State) : nat :=
  length (filter (fun x => p x = true) (trace st)).

(** ** The methods of [WaitlistMailer] *)

(** An array index is the canonical decimal numeral of an integer from 0
    to 2^32 - 2: digits only, no leading zero but for [0] itself. *)
Fixpoint parseDigits (s : string) (acc : Z) : option Z :=
  match s with
  | EmptyString => Some acc
  | String c r =>
      if JsString.isDigit c
      then parseDigits r (10 * acc + (Z.of_nat (nat_of_ascii c) - 48))
      else None
  end.

Definition arrayIndex (k : string) : option Z :=
  match k with
  | EmptyString => None
  | String c r =>
      if Ascii.eqb c "0" && negb (String.eqb r EmptyString) then None
      else
        match parseDigits k 0 with
        | Some n => if n <? 4294967295 then Some n else None
        | None => None
        end
  end.

Definition objectHas (k : string) (o : list (string * string)) : bool :=
  existsb (fun kv => String.eqb k (fst kv)) o.

(** Assigning a key the object has: the entry keeps its place. *)
Fixpoint objectReplace (k v : string) (o : list (string * string))
    : list (string * string) :=
  match o with
  | [] => []
  | (k', v') :: r =>
      if String.eqb k k' then (k', v) :: r else (k', v') :: objectReplace k v r
  end.

(** A new array index goes after the smaller array indices and before
    everything else. *)
Fixpoint objectInsertIndex (n : Z) (k v : string) (o : list (string * string))
    : list (string * string) :=
  match o with
  | [] => [(k, v)]
  | (k', v') :: r =>
      match arrayIndex k' with
      | Some n' =>
          if n' <? n then (k', v') :: objectInsertIndex n k v r
          else (k, v) :: (k', v') :: r
      | None => (k, v) :: (k', v') :: r
      end
  end.

(** [o[k] = v] on the entries of [o], in the order [Object.entries] lists
    them.  A new key that is no array index goes to the end. *)
Definition objectSet (k v : string) (o : list (string * string))
    : list (string * string) :=
  if objectHas k o then objectReplace k v o
  else
    match arrayIndex k with
    | Some n => objectInsertIndex n k v o
    | None => o ++ [(k, v)]
    end.

(** [{ ...base, ...more }]. *)
Fixpoint spread (base more : list (string * string)) : list (string * string) :=
  match more with
  | [] => base
  | (k, v) :: r => spread (objectSet k v base) r
  end.

(** The loop [for (const [key, value] of Object.entries(templateVariables))]
    of [sendConfirmationFromFile] when every key is an identifier; the
    general loop is [substituteEach] below. *)
Fixpoint substituteAll (vars : list (string * string)) (htmlContent : string) : string :=
  match vars with
  | [] => htmlContent
  | (key, value) :: r =>
      substituteAll r (JsString.replace (JsString.token key) value htmlContent)
  end.

(** The asynchronous continuations the constructor and the fire-and-forget
    backend calls leave behind. *)
Inductive Callback :=
| verifyDone (error : option string)
| localTimerFired
| mongoConnectSettled (r : Settled unit)
| mongoFindSettled (r : Settled (list string))
| sqlAuthenticateSettled (r : Settled unit)
| sqlSyncSettled (r : Settled unit)
| sqlFindAllSettled (r : Settled (list string))
| persistenceRejected (email action error : string).

(** What a public method hands back. *)
Inductive Value :=
| VBool (b : bool)
| VNumber (n : nat)
| VArray (r : loc)
| VUndefined.

Section Methods.

(** [Joi.string().email({ tlds: { allow: false } }).required().validate]:
    the message of the validation error, if there is one. *)
Variable joi : string -> option string.

(** [transporter.sendMail], by the number of mails sent before: it
    resolves with the message id or rejects. *)
Variable smtp : nat -> SendMailOptions -> Settled string.

(** [readFile(path, 'utf8')], by the number of earlier reads. *)
Variable fs : nat -> string -> Settled string.

(** The queries of the two drivers, by the number of earlier backend
    calls. *)
Variable mongoCount : nat -> MongoQuery -> Settled nat.
Variable sqlCount : nat -> SqlWhere -> Settled nat.
Variable mongoFind : nat -> string -> Settled (list string).
Variable sqlFind : nat -> string -> Settled (list string).

(** The regular-expression engine.  [regexpError source] is the message of
    the SyntaxError that [new RegExp(source, flags)] throws, [None] when the
    source compiles; [regexpReplace source value s] is
    [s.replace(new RegExp(source, 'g'), value)] for a source that
    compiles. *)
Variable regexpError : string -> option string.
Variable regexpReplace : string -> string -> string -> string.

(** [nodemailer.createTransport] keeps the options it is given. *)
Definition createTransport (mailConfig : MailConfig) : Transporter :=
  {| options :=
       {| t_host := host mailConfig;
          t_port := port mailConfig;
          secure := bool_decide (port mailConfig = Some 465);
          auth_user := user mailConfig;
          auth_pass := pass mailConfig |} |}.

(** The constructor, up to the point where it returns: the callbacks it
    registers run later, see [resume]. *)
Definition new_WaitlistMailer (storage : Storage) (mailConfig : MailConfig)
    (options : option WaitlistMailerOptions) : Completion State :=
  let st0 :=
    {| storage := storage;
       waitlist := [];
       transporter := createTransport mailConfig;
       companyName :=
         (let c := options ≫= opt_companyName in
          if truthy c then default EmptyString c else "Your Company Name");
       mongoUri := options ≫= opt_mongoUri;
       sqlConnection := options ≫= opt_sqlConfig;
       initialized := false;
       heap := ∅;
       trace := [] |} in
  let st1 := record TransportVerify st0 in
  Returned
    (if usesMongo st1 then
       record (Backend (MongoConnect (default EmptyString (mongoUri st1)))) st1
     else if usesSql st1 then
       record (Backend SqlAuthenticate) st1
     else
       record (SetTimeout 0) (set_initialized true st1)).

Record ValidationResult := { isValid : bool; message : option string }.

Definition validateEmailFormat (email : string) : ValidationResult :=
  match joi email with
  | Some msg => {| isValid := false; message := Some msg |}
  | None => {| isValid := true; message := None |}
  end.

Definition emailExists (email : string) : M bool :=
  gets (fun st => JsSet.has email (waitlist st)).

Definition handleError (email action error : string) : M unit :=
  emit (onError email action error).

(** [waitlistDocs.forEach(doc => this.waitlist.add(doc.email))]. *)
Definition hydrate (docs : list string) : M unit :=
  modify (fun st => set_waitlist (foldl (fun w e => JsSet.add e w) (waitlist st) docs) st).

Definition resume (cb : Callback) : M unit :=
  match cb with
  | verifyDone (Some error) => emit (onTransporterError error)
  | verifyDone None => emit onTransporterReady
  | localTimerFired => emit onInitialized
  | mongoConnectSettled (Fulfilled _) =>
      emit onDbConnected ;;; perform (Backend MongoFind)
  | mongoConnectSettled (Rejected err) => emit (onDbError err)
  | mongoFindSettled (Fulfilled docs) =>
      hydrate docs ;;; modify (set_initialized true) ;;; emit onInitialized
  | mongoFindSettled (Rejected err) =>
      handleError "waitlist" "loadWaitlistFromDb" err ;;; emit (onDbError err)
  | sqlAuthenticateSettled (Fulfilled _) =>
      emit onSqlConnected ;;; perform (Backend SqlSync)
  | sqlAuthenticateSettled (Rejected err) => emit (onSqlError err)
  | sqlSyncSettled (Fulfilled _) => perform (Backend SqlFindAll)
  | sqlSyncSettled (Rejected err) => emit (onSqlError err)
  | sqlFindAllSettled (Fulfilled docs) =>
      hydrate docs ;;; modify (set_initialized true) ;;; emit onInitialized
  | sqlFindAllSettled (Rejected err) =>
      handleError "waitlist" "loadWaitlistFromSql" err ;;; emit (onSqlError err)
  | persistenceRejected email action err => handleError email action err
  end.

Definition isInitialized : M bool := gets initialized.

Definition findEmailsByPattern (pattern : string) : M loc :=
  fun st =>
    if bool_decide (storage st = storage_local) then
      (r0 <- newArray (JsSet.toArray (waitlist st)) ;;
       newArray
         (filter
            (fun email =>
               JsString.includes (JsString.toLowerCase email)
                 (JsString.toLowerCase pattern) = true)
            (JsSet.toArray (waitlist st)))) st
    else if usesMongo st then
      match regexpError pattern with
      | Some err =>
          (handleError "waitlist" "findEmailsByPattern" err ;;; newArray []) st
      | None =>
          match mongoFind (occurrences isBackend st) pattern with
          | Fulfilled docs =>
              (perform (Backend (MongoFindRegex pattern)) ;;; newArray docs) st
          | Rejected err =>
              (perform (Backend (MongoFindRegex pattern)) ;;;
               handleError "waitlist" "findEmailsByPattern" err ;;;
               newArray []) st
          end
      end
    else if usesSql st then
      match sqlFind (occurrences isBackend st) pattern with
      | Fulfilled docs =>
          (perform (Backend (SqlFindLike pattern)) ;;; newArray docs) st
      | Rejected err =>
          (perform (Backend (SqlFindLike pattern)) ;;;
           handleError "waitlist" "findEmailsByPattern" err ;;;
           newArray []) st
      end
    else newArray [] st.

Definition countWaitlistByDate (startDate endDate : option Z) : M nat :=
  fun st =>
    if bool_decide (storage st = storage_local) then
      (JsSet.size (waitlist st), st)
    else if usesMongo st then
      let query := {| gte := startDate; lte := endDate |} in
      match mongoCount (occurrences isBackend st) query with
      | Fulfilled count =>
          (perform (Backend (MongoCountDocuments query)) ;;; ret count) st
      | Rejected err =>
          (perform (Backend (MongoCountDocuments query)) ;;;
           handleError "waitlist" "countWaitlistByDate" err ;;;
           ret O) st
      end
    else if usesSql st then
      let where_ :=
        match startDate, endDate with
        | Some s, Some e => whereBetween s e
        | Some s, None => whereGte s
        | None, Some e => whereLte e
        | None, None => whereAll
        end in
      match sqlCount (occurrences isBackend st) where_ with
      | Fulfilled count =>
          (perform (Backend (SqlCount where_)) ;;; ret count) st
      | Rejected err =>
          (perform (Backend (SqlCount where_)) ;;;
           handleError "waitlist" "countWaitlistByDate" err ;;;
           ret O) st
      end
    else (O, st).

(** The backend call that follows a change of the set; its [.catch] is
    the callback [persistenceRejected]. *)
Definition persist (mongoCall sqlCall : BackendCall) : M unit :=
  fun st =>
    if usesMongo st then perform (Backend mongoCall) st
    else if usesSql st then perform (Backend sqlCall) st
    else (tt, st).

Definition addEmail (email : string) : M bool :=
  let formatCheck := validateEmailFormat email in
  if negb (isValid formatCheck) then
    emit (onValidationError email (message formatCheck)) ;;; ret false
  else
    exists_ <- emailExists email ;;
    if (exists_ : bool) then
      emit (onDuplicateEmail email) ;;; ret false
    else
      modify (fun st => set_waitlist (JsSet.add email (waitlist st)) st) ;;;
      emit (onEmailAdded email) ;;;
      persist (MongoCreate email) (SqlCreate email) ;;;
      ret true.

Definition removeEmail (email : string) : M bool :=
  present <- gets (fun st => JsSet.has email (waitlist st)) ;;
  if negb present then ret false
  else
    modify (fun st => set_waitlist (JsSet.delete email (waitlist st)) st) ;;;
    emit (onEmailRemoved email) ;;;
    persist (MongoDeleteOne email) (SqlDestroy email) ;;;
    ret true.

Definition getWaitlist : M loc :=
  w <- gets waitlist ;; newArray (JsSet.toArray w).

Definition clearWaitlist : M unit :=
  modify (fun st => set_waitlist (JsSet.clear (waitlist st)) st) ;;;
  emit onWaitlistCleared ;;;
  persist MongoDeleteMany SqlDestroyAll.

Definition dquote : string := String (ascii_of_nat 34) EmptyString.

Definition sendMail (email subject htmlContent : string) : M bool :=
  authUser <- gets (fun st => auth_user (options (transporter st))) ;;
  if negb (truthy authUser) then
    handleError email "sendMail" "Transporter not configured" ;;; ret false
  else
    company <- gets companyName ;;
    let mailOptions :=
      {| from := dquote +:+ company +:+ dquote +:+ " <"
                 +:+ default EmptyString authUser +:+ ">";
         to := email;
         subject := subject;
         html := htmlContent |} in
    sentBefore <- gets (occurrences isSendMail) ;;
    perform (TransportSendMail mailOptions) ;;;
    match smtp sentBefore mailOptions with
    | Fulfilled info => emit (onEmailSent email info) ;;; ret true
    | Rejected err => handleError email "sendMail" err ;;; ret false
    end.

Definition sendConfirmation (email : string)
    (subjectTemplate bodyTemplate : string -> string) : M bool :=
  present <- gets (fun st => JsSet.has email (waitlist st)) ;;
  if negb present then ret false
  else
    company <- gets companyName ;;
    let subject := subjectTemplate email in
    let htmlContent :=
      JsString.replace (JsString.literal "[Company Name]") company
        (bodyTemplate email) in
    sendMail email subject htmlContent.

(** The template literal [`{{\\s*${key}\\s*}}`]. *)
Definition tokenSource (key : string) : string :=
  "{{\s*" +:+ key +:+ "\s*}}".

(** One turn of the loop over the template variables:
    [htmlContent.replace(new RegExp(`{{\\s*${key}\\s*}}`, 'g'), value)], which
    throws when the source does not compile. *)
Definition substituteKey (key value htmlContent : string) : Settled string :=
  if JsString.isIdentifier key then
    Fulfilled (JsString.replace (JsString.token key) value htmlContent)
  else
    match regexpError (tokenSource key) with
    | Some err => Rejected err
    | None => Fulfilled (regexpReplace (tokenSource key) value htmlContent)
    end.

(** The loop [for (const [key, value] of Object.entries(templateVariables))],
    left at the first key whose pattern does not compile. *)
Fixpoint substituteEach (vars : list (string * string)) (htmlContent : string)
    : Settled string :=
  match vars with
  | [] => Fulfilled htmlContent
  | (key, value) :: r =>
      match substituteKey key value htmlContent with
      | Fulfilled replaced => substituteEach r replaced
      | Rejected err => Rejected err
      end
  end.

(** [replacements] is [Object.entries] of the caller's object. *)
Definition sendConfirmationFromFile (email : string)
    (subjectTemplate : string -> string) (templateFilePath : string)
    (replacements : list (string * string)) : M bool :=
  fun st =>
    if negb (JsSet.has email (waitlist st)) then (false, st)
    else
      let readsBefore := occurrences isReadFile st in
      let st1 := record (ReadFile templateFilePath) st in
      match fs readsBefore templateFilePath with
      | Rejected err =>
          (handleError email "sendConfirmationFromFile" err ;;; ret false) st1
      | Fulfilled content =>
          let templateVariables :=
            spread [("email", email); ("companyName", companyName st1)]
              replacements in
          match substituteEach templateVariables content with
          | Rejected err =>
              (handleError email "sendConfirmationFromFile" err ;;; ret false) st1
          | Fulfilled htmlContent =>
              sendMail email (subjectTemplate email) htmlContent st1
          end
      end.

(** The loop [for (let attempt = 0; attempt <= retries; attempt++)] for an
    integer [retries]: [todo] counts the iterations that remain,
    [retries + 1 - attempt] of them when the loop is entered with a
    non-negative [retries] and none when [retries] is negative. *)
Fixpoint retryLoop (todo : nat) (attempt retries delayMs : Z) (email : string)
    (subjectTemplate bodyTemplate : string -> string) : M bool :=
  match todo with
  | O => ret false
  | S todo' =>
      result <- sendConfirmation email subjectTemplate bodyTemplate ;;
      if (result : bool) then ret true
      else
        emit (onEmailRetry email (attempt + 1)) ;;;
        (if attempt <? retries then perform (Sleep delayMs) else ret tt) ;;;
        retryLoop todo' (attempt + 1) retries delayMs email
          subjectTemplate bodyTemplate
  end.

Definition sendConfirmationWithRetry (email : string)
    (subjectTemplate bodyTemplate : string -> string)
    (retries delayMs : Z) : M bool :=
  retryLoop (Z.to_nat (retries + 1)) 0 retries delayMs email
    subjectTemplate bodyTemplate.

(** The loop [for (const email of emails)] of [sendBulkConfirmation]. *)
Fixpoint bulkLoop (emails : list string) (successCount : nat)
    (subjectTemplate bodyTemplate : string -> string)
    (retries delayMs : Z) : M nat :=
  match emails with
  | [] => ret successCount
  | email :: rest =>
      result <- sendConfirmationWithRetry email subjectTemplate bodyTemplate
                  retries delayMs ;;
      bulkLoop rest (if (result : bool) then S successCount else successCount)
        subjectTemplate bodyTemplate retries delayMs
  end.

Definition sendBulkConfirmation
    (subjectTemplate bodyTemplate : string -> string)
    (retries delayMs : Z) : M nat :=
  r <- getWaitlist ;;
  emails <- gets (fun st => default [] (heap st !! r)) ;;
  successCount <- bulkLoop emails O subjectTemplate bodyTemplate retries delayMs ;;
  emit (onBulkConfirmationComplete successCount (length emails)) ;;;
  ret successCount.

(** The public methods as data, to speak of sequences of calls. *)
Inductive Op :=
| op_addEmail (email : string)
| op_removeEmail (email : string)
| op_getWaitlist
| op_clearWaitlist
| op_isInitialized
| op_findEmailsByPattern (pattern : string)
| op_countWaitlistByDate (startDate endDate : option Z)
| op_sendConfirmation (email : string)
    (subjectTemplate bodyTemplate : string -> string)
| op_sendConfirmationFromFile (email : string)
    (subjectTemplate : string -> string) (templateFilePath : string)
    (replacements : list (string * string))
| op_sendConfirmationWithRetry (email : string)
    (subjectTemplate bodyTemplate : string -> string) (retries delayMs : Z)
| op_sendBulkConfirmation
    (subjectTemplate bodyTemplate : string -> string) (retries delayMs : Z).

Definition lift {A} (v : A -> Value) (m : M A) : M Value :=
  fun st => let '(a, st1) := m st in (v a, st1).

Definition run (op : Op) : M Value :=
  match op with
  | op_addEmail email => lift VBool (addEmail email)
  | op_removeEmail email => lift VBool (removeEmail email)
  | op_getWaitlist => lift VArray getWaitlist
  | op_clearWaitlist => lift (fun _ => VUndefined) clearWaitlist
  | op_isInitialized => lift VBool isInitialized
  | op_findEmailsByPattern pattern => lift VArray (findEmailsByPattern pattern)
  | op_countWaitlistByDate s e => lift VNumber (countWaitlistByDate s e)
  | op_sendConfirmation email sT bT => lift VBool (sendConfirmation email sT bT)
  | op_sendConfirmationFromFile email sT path repl =>
      lift VBool (sendConfirmationFromFile email sT path repl)
  | op_sendConfirmationWithRetry email sT bT retries delayMs =>
      lift VBool (sendConfirmationWithRetry email sT bT retries delayMs)
  | op_sendBulkConfirmation sT bT retries delayMs =>
      lift VNumber (sendBulkConfirmation sT bT retries delayMs)
  end.

(** A sequence of calls, one after the other. *)
Fixpoint runAll (ops : list Op) (st : State) : State :=
  match ops with
  | [] => st
  | op :: rest => runAll rest (snd (run op st))
  end.

End Methods.

(** What a caller can do to an array it was handed: any in-place change
    ([push], [pop], [splice], an indexed assignment) replaces the contents
    of that array in the store. *)
Definition mutateArray (r : loc) (f : list string -> list string) : M unit :=
  modify (fun st => set_heap (alter f r (heap st)) st).

(** The events among the effects of a trace. *)
Definition eventsOf (t : list Effect) : list Event :=
  omap (fun x => match x with Emit e => Some e | _ => None end) t.

Definition mailsOf (t : list Effect) : list SendMailOptions :=
  omap (fun x => match x with TransportSendMail m => Some m | _ => None end) t.

(** ** States reached by a run *)

(** A callback can only run after the call that registered it. *)
Definition isWrite (x : Effect) : bool :=
  match x with
  | Backend (MongoCreate _) | Backend (MongoDeleteOne _) | Backend MongoDeleteMany
  | Backend (SqlCreate _) | Backend (SqlDestroy _) | Backend SqlDestroyAll => true
  | _ => false
  end.

Definition pending (cb : Callback) (st : State) : bool :=
  match cb with
  | verifyDone _ => existsb (fun x => match x with TransportVerify => true | _ => false end) (trace st)
  | localTimerFired => existsb (fun x => match x with SetTimeout _ => true | _ => false end) (trace st)
  | mongoConnectSettled _ =>
      existsb (fun x => match x with Backend (MongoConnect _) => true | _ => false end) (trace st)
  | mongoFindSettled _ =>
      existsb (fun x => match x with Backend MongoFind => true | _ => false end) (trace st)
  | sqlAuthenticateSettled _ =>
      existsb (fun x => match x with Backend SqlAuthenticate => true | _ => false end) (trace st)
  | sqlSyncSettled _ =>
      existsb (fun x => match x with Backend SqlSync => true | _ => false end) (trace st)
  | sqlFindAllSettled _ =>
      existsb (fun x => match x with Backend SqlFindAll => true | _ => false end) (trace st)
  | persistenceRejected _ _ _ => existsb isWrite (trace st)
  end.

Section Runs.

Variable joi : string -> option string.
Variable smtp : nat -> SendMailOptions -> Settled string.
Variable fs : nat -> string -> Settled string.
Variable mongoCount : nat -> MongoQuery -> Settled nat.
Variable sqlCount : nat -> SqlWhere -> Settled nat.
Variable mongoFind : nat -> string -> Settled (list string).
Variable sqlFind : nat -> string -> Settled (list string).
Variable regexpError : string -> option string.
Variable regexpReplace : string -> string -> string -> string.

(** The states an instance goes through: the one the constructor returns,
    then calls of the methods of [Op] and pending callbacks in any order. *)
Inductive reachable : State -> Prop :=
| reach_new storage mailConfig options st :
    new_WaitlistMailer storage mailConfig options = Returned st ->
    reachable st
| reach_call op st v st' :
    reachable st ->
    run joi smtp fs mongoCount sqlCount mongoFind sqlFind regexpError regexpReplace
      op st = (v, st') ->
    reachable st'
| reach_callback cb st st' :
    reachable st ->
    pending cb st = true ->
    resume cb st = (tt, st') ->
    reachable st'.

End Runs.

(** ** Sample collaborators and inputs *)

Module Sample.

Fixpoint splitAtChar (c : ascii) (s : string) : option (string * string) :=
  match s with
  | EmptyString => None
  | String a r =>
      if Ascii.eqb a c then Some (EmptyString, r)
      else match splitAtChar c r with
           | Some (l, d) => Some (String a l, d)
           | None => None
           end
  end.

(** Modelled from the spec: the e-mail validator (Joi is a library, not
    code of this repository).  Section 4.1 asks that it reject the empty
    string, strings without exactly one at-sign and strings whose domain
    has no dot.  This instance is used only to run the model on examples. *)
Definition joi (s : string) : option string :=
  match s with
  | EmptyString => Some "value is not allowed to be empty"
  | _ =>
      match splitAtChar "@" s with
      | Some (l, d) =>
          if negb (String.eqb l EmptyString)
             && negb (JsString.includes d "@")
             && JsString.includes (JsString.drop 1 d) "."
             && negb (String.eqb (JsString.drop (String.length d - 1) d) ".")
          then None
          else Some "value must be a valid email"
      | None => Some "value must be a valid email"
      end
  end.

Definition alwaysSends : nat -> SendMailOptions -> Settled string :=
  fun _ _ => Fulfilled "mock-id".

Definition neverSends : nat -> SendMailOptions -> Settled string :=
  fun _ _ => Rejected "Failed".

(** [mockRejectedValueOnce] followed by [mockResolvedValueOnce]. *)
Definition failsOnce : nat -> SendMailOptions -> Settled string :=
  fun n _ => match n with O => Rejected "Failed" | S _ => Fulfilled "mock-id" end.

Definition noFile : nat -> string -> Settled string :=
  fun _ _ => Rejected "ENOENT".

Definition fileWith (content : string) : nat -> string -> Settled string :=
  fun _ _ => Fulfilled content.

Definition noCount {Q} : nat -> Q -> Settled nat := fun _ _ => Rejected "offline".
Definition noFind : nat -> string -> Settled (list string) :=
  fun _ _ => Rejected "offline".

(** A regular-expression engine for the examples.  They ask it about
    sources made of letters and digits only, which compile; its [replace]
    is never asked, since the keys of the examples are identifiers. *)
Definition regexpError (source : string) : option string :=
  if JsString.allChars JsString.isIdentChar source then None
  else Some "Invalid regular expression".

Definition regexpReplace (source value s : string) : string := s.

Definition mailConfig : MailConfig :=
  {| host := Some "smtp.example.com"; port := Some 587;
     user := Some "test@example.com"; pass := Some "password" |}.

Definition mailConfigNoPass : MailConfig :=
  {| host := Some "smtp.example.com"; port := Some 587;
     user := Some "test@example.com"; pass := None |}.

Definition mailConfigNoUser : MailConfig :=
  {| host := Some "smtp.example.com"; port := Some 587;
     user := None; pass := Some "password" |}.

Definition acme : WaitlistMailerOptions :=
  {| opt_companyName := Some "Acme"; opt_mongoUri := None; opt_sqlConfig := None |}.

Definition mongoOptions : WaitlistMailerOptions :=
  {| opt_companyName := Some "Acme";
     opt_mongoUri := Some "mongodb://localhost:27017/testdb";
     opt_sqlConfig := None |}.

Definition started (storage : Storage) (c : MailConfig)
    (o : option WaitlistMailerOptions) : State :=
  match new_WaitlistMailer storage c o with
  | Returned st => st
  | Threw _ =>
      {| storage := storage; waitlist := []; transporter := createTransport c;
         companyName := EmptyString; mongoUri := None; sqlConnection := None;
         initialized := false; heap := ∅; trace := [] |}
  end.

(** A local instance of company Acme. *)
Definition localAcme : State := started storage_local mailConfig (Some acme).

(** A Mongo-backed instance whose connection has not been established. *)
Definition connecting : State := started storage_db mailConfig (Some mongoOptions).

Definition withMembers (l : list string) (st : State) : State :=
  foldl (fun s e => snd (addEmail joi e s)) st l.

(** The Mongo-backed instance once the connection is established, and
    once the load has answered with [docs]. *)
Definition connected : State :=
  snd (resume (mongoConnectSettled (Fulfilled tt)) connecting).

Definition loaded (docs : list string) (st : State) : State :=
  snd (resume (mongoFindSettled (Fulfilled docs)) st).

Definition subjectFn : string -> string := fun email => "Welcome " +:+ email.
Definition bodyFn : string -> string := fun _ => "Welcome [Company Name]".

End Sample.

(** ** The vocabulary of the properties *)

Ltac unfold_M :=
  unfold handleError, emailExists, emit, perform in *;
  unfold bind, ret, gets, modify in *;
  cbn beta iota in *.

(** The fields of the object are the same in both states. *)
Definition sameFields (st st' : State) : Prop :=
  storage st' = storage st
  /\ waitlist st' = waitlist st
  /\ transporter st' = transporter st
  /\ companyName st' = companyName st
  /\ mongoUri st' = mongoUri st
  /\ sqlConnection st' = sqlConnection st
  /\ initialized st' = initialized st.

(** [st'] differs from [st] by new arrays and by effects that satisfy [p]
    at the end of the trace. *)
Definition grows (p : Effect -> bool) (st st' : State) : Prop :=
  sameFields st st'
  /\ exists tail, trace st' = trace st ++ tail /\ forallb p tail = true.

(** The effects of the send methods: events other than the one that closes
    a bulk run, mails, delays and file reads. *)
Definition sendEffect (x : Effect) : bool :=
  match x with
  | Emit (onError _ _ _) | Emit (onEmailSent _ _) | Emit (onEmailRetry _ _) => true
  | TransportSendMail _ | Sleep _ | ReadFile _ => true
  | _ => false
  end.

Definition validated (joi : string -> option string) (st : State) : Prop :=
  Forall (fun email => joi email = None) (waitlist st).

(** No backend call has been made. *)
Definition noBackend (st : State) : Prop :=
  forallb (fun x => negb (isBackend x)) (trace st) = true.

(** What a run keeps true of a local instance. *)
Definition localInv (joi : string -> option string) (st : State) : Prop :=
  storage st = storage_local /\ validated joi st /\ noBackend st.

(** A computation is blind to the flag when running it with the flag
    overwritten gives the same result and the same state, up to the flag. *)
Definition flagBlind {A} (m : M A) : Prop :=
  forall b st, m (set_initialized b st)
               = let '(a, st') := m st in (a, set_initialized b st').

(** The one public method that reads the flag. *)
Definition readsFlag (op : Op) : bool :=
  match op with op_isInitialized => true | _ => false end.

Definition isSent (x : Effect) : bool :=
  match x with Emit (onEmailSent _ _) => true | _ => false end.

Definition isBulkComplete (x : Effect) : bool :=
  match x with Emit (onBulkConfirmationComplete _ _) => true | _ => false end.

(** The number of [onEmailSent] events. *)
Definition sentCount (t : list Effect) : nat :=
  length (filter (fun x => isSent x = true) t).

(** The [onEmailRetry] events, in order. *)
Definition retriesOf (t : list Effect) : list (string * Z) :=
  omap (fun x => match x with Emit (onEmailRetry e n) => Some (e, n) | _ => None end) t.

(** The delays, in order. *)
Definition sleepsOf (t : list Effect) : list Z :=
  omap (fun x => match x with Sleep ms => Some ms | _ => None end) t.

(** What one attempt adds: at most one mail, addressed to [email], one
    [onEmailSent] exactly when it succeeds, no retry event and no delay. *)
Definition oneAttempt (email : string) (r : bool) (tail : list Effect) : Prop :=
  sentCount tail = (if r then 1 else 0)%nat
  /\ retriesOf tail = []
  /\ sleepsOf tail = []
  /\ (length (mailsOf tail) <= 1)%nat
  /\ Forall (fun m => to m = email) (mailsOf tail)
  /\ forallb sendEffect tail = true.

(** What the retry loop adds when it is entered with [todo] iterations to
    go at attempt number [attempt]: [failed] attempts fail, each followed by
    its [onEmailRetry] event numbered from [attempt + 1] on, and by a delay
    as long as the attempt number is below [retries]; the loop returns
    [true] at the first success and [false] when all [todo] attempts
    failed. *)
Definition retryAccount (email : string) (todo : nat) (attempt retries delayMs : Z)
    (r : bool) (tail : list Effect) : Prop :=
  exists failed : nat,
    (if r then (failed < todo)%nat else failed = todo)
    /\ sentCount tail = (if r then 1 else 0)%nat
    /\ retriesOf tail
       = map (fun i => (email, attempt + 1 + Z.of_nat i)) (seq 0 failed)
    /\ sleepsOf tail
       = replicate (Nat.min failed (Z.to_nat (retries - attempt))) delayMs
    /\ (length (mailsOf tail) <= failed + (if r then 1 else 0))%nat
    /\ Forall (fun m => to m = email) (mailsOf tail)
    /\ forallb sendEffect tail = true.

(** What the run for one address contributed: its result and its part of
    the trace. *)
Definition bulkAccount (retries delayMs : Z) (email : string)
    (run1 : bool * list Effect) : Prop :=
  retryAccount email (Z.to_nat (retries + 1)) 0 retries delayMs (fst run1) (snd run1).

Definition successes (runs : list (bool * list Effect)) : nat :=
  length (filter (fun run1 => fst run1 = true) runs).

(** The specification of the bulk send in its own words: [sendWithRetry] is
    applied to every address, one after the other, each on the state the
    one before left; the results are kept in the order of the addresses and
    the successful ones are counted. *)
Fixpoint sendWithRetryEach (smtp : nat -> SendMailOptions -> Settled string)
    (subjectTemplate bodyTemplate : string -> string) (retries delayMs : Z)
    (addresses : list string) (st : State) : list bool * State :=
  match addresses with
  | [] => ([], st)
  | address :: rest =>
      let '(ok, st1) :=
        sendConfirmationWithRetry smtp address subjectTemplate bodyTemplate
          retries delayMs st in
      let '(oks, st2) :=
        sendWithRetryEach smtp subjectTemplate bodyTemplate retries delayMs
          rest st1 in
      (ok :: oks, st2)
  end.

Definition countSuccessful (oks : list bool) : nat :=
  length (filter (fun ok => ok = true) oks).

(** A token is two opening braces, any white space, the key, any white
    space and two closing braces. *)
Definition tokenText (ws1 key ws2 : string) : string :=
  "{{" +:+ ws1 +:+ key +:+ ws2 +:+ "}}".

(** Reading a key of an object given by its entries. *)
Fixpoint objectGet (k : string) (o : list (string * string)) : option string :=
  match o with
  | [] => None
  | (k', v) :: r => if String.eqb k k' then Some v else objectGet k r
  end.

(** The backend command a change of the set is followed by, if any. *)
Definition persisted (mongoCall sqlCall : BackendCall) (st : State) : list Effect :=
  if usesMongo st then [Backend mongoCall]
  else if usesSql st then [Backend sqlCall]
  else [].

(** The instance keeps its list in memory only: it is neither connected to
    Mongo nor to SQL. *)
Definition memoryOnly (st : State) : bool :=
  negb (usesMongo st) && negb (usesSql st).

(** The callbacks that complete a hydration. *)
Definition loads (cb : Callback) : bool :=
  match cb with
  | mongoFindSettled (Fulfilled _) | sqlFindAllSettled (Fulfilled _) => true
  | _ => false
  end.

(** Everything of the object but its list is the same in both states. *)
Definition sameConfig (st st' : State) : Prop :=
  storage st' = storage st
  /\ transporter st' = transporter st
  /\ companyName st' = companyName st
  /\ mongoUri st' = mongoUri st
  /\ sqlConnection st' = sqlConnection st
  /\ initialized st' = initialized st.

(** * Properties *)

(** ** The patterns on examples *)

Example token_plain :
  JsString.replace (JsString.token "email") "a@x.com" "Hi {{email}}, {{ email	}}!"
  = "Hi a@x.com, a@x.com!".
Proof. vm_compute. reflexivity. Qed.

Example token_other_key_untouched :
  JsString.replace (JsString.token "email") "a@x.com" "{{emails}} {{ name }} {email}"
  = "{{emails}} {{ name }} {email}".
Proof. vm_compute. reflexivity. Qed.

Example literal_company :
  JsString.replace (JsString.literal "[Company Name]") "Acme" "Welcome [Company Name]"
  = "Welcome Acme".
Proof. vm_compute. reflexivity. Qed.

Example dollar_patterns :
  JsString.replace (JsString.token "k") "<$$|$&|$`|$'|$1|$>" "ab{{k}}cd"
  = "ab<$|{{k}}|ab|cd|$1|$>cd".
Proof. vm_compute. reflexivity. Qed.

Example find_by_pattern_local :
  let st := Sample.withMembers ["test@x.com"; "other@x.com"] Sample.localAcme in
  let '(r, st') :=
    findEmailsByPattern Sample.noFind Sample.noFind Sample.regexpError "TEST" st in
  heap st' !! r = Some ["test@x.com"].
Proof. vm_compute. reflexivity. Qed.

(** ** The set *)

Lemma has_true x (s : list string) : JsSet.has x s = true <-> x ∈ s.
Proof. unfold JsSet.has. apply bool_decide_eq_true. Qed.

Lemma has_false x (s : list string) : JsSet.has x s = false <-> x ∉ s.
Proof. unfold JsSet.has. apply bool_decide_eq_false. Qed.

Lemma has_add_same x (s : list string) : JsSet.has x (JsSet.add x s) = true.
Proof.
  unfold JsSet.add. destruct (JsSet.has x s) eqn:E; [exact E|].
  apply has_true. set_solver.
Qed.

Lemma elem_of_add x y (s : list string) : y ∈ JsSet.add x s <-> y = x \/ y ∈ s.
Proof.
  unfold JsSet.add. destruct (JsSet.has x s) eqn:E.
  - apply has_true in E. split; [tauto|]. intros [->|H]; assumption.
  - rewrite elem_of_app, list_elem_of_singleton. tauto.
Qed.

Lemma elem_of_delete x y (s : list string) : y ∈ JsSet.delete x s <-> y <> x /\ y ∈ s.
Proof. unfold JsSet.delete. rewrite list_elem_of_filter. tauto. Qed.

Lemma add_NoDup x (s : list string) : NoDup s -> NoDup (JsSet.add x s).
Proof.
  intros H. unfold JsSet.add. destruct (JsSet.has x s) eqn:E; [exact H|].
  apply has_false in E. apply NoDup_app. repeat split; [exact H| |apply NoDup_singleton].
  intros y Hy Hx. apply list_elem_of_singleton in Hx. subst. contradiction.
Qed.

Lemma delete_NoDup x (s : list string) : NoDup s -> NoDup (JsSet.delete x s).
Proof. intros H. unfold JsSet.delete. by apply NoDup_filter. Qed.

Lemma delete_shrinks x (s : list string) : JsSet.has x (JsSet.delete x s) = false.
Proof. apply has_false. rewrite elem_of_delete. tauto. Qed.

(** ** The backend call after a change of the set *)

Lemma persist_waitlist mongoCall sqlCall st :
  waitlist (snd (persist mongoCall sqlCall st)) = waitlist st.
Proof. unfold persist. unfold_M. repeat case_match; reflexivity. Qed.

Lemma persist_trace mongoCall sqlCall st :
  exists tail, trace (snd (persist mongoCall sqlCall st)) = trace st ++ tail
               /\ eventsOf tail = [].
Proof.
  unfold persist. unfold_M. repeat case_match; simpl.
  - exists [Backend mongoCall]. split; reflexivity.
  - exists [Backend sqlCall]. split; reflexivity.
  - exists []. split; [by rewrite app_nil_r | reflexivity].
Qed.

(** ** addEmail *)

(** C4. For an address the validator accepts and the set does not hold,
    the first of two successive [addEmail] calls returns [true], appends the
    address and emits [onEmailAdded]; the second returns [false] and does
    nothing but emit [onDuplicateEmail]: the set is unchanged and no
    [onEmailAdded] is among its events. *)
Theorem addEmail_twice (joi : string -> option string) (email : string) (st : State) :
  joi email = None ->
  JsSet.has email (waitlist st) = false ->
  exists st1 st2 tail,
    addEmail joi email st = (true, st1)
    /\ waitlist st1 = waitlist st ++ [email]
    /\ trace st1 = trace st ++ Emit (onEmailAdded email) :: tail
    /\ addEmail joi email st1 = (false, st2)
    /\ st2 = record (Emit (onDuplicateEmail email)) st1
    /\ waitlist st2 = waitlist st1
    /\ trace st2 = trace st1 ++ [Emit (onDuplicateEmail email)]
    /\ eventsOf (trace st2) = eventsOf (trace st1) ++ [onDuplicateEmail email].
Proof.
  intros Hjoi Hnew.
  set (st0 := record (Emit (onEmailAdded email))
                (set_waitlist (JsSet.add email (waitlist st)) st)).
  destruct (persist (MongoCreate email) (SqlCreate email) st0) as [u st1] eqn:Hp.
  assert (Hw1 : waitlist st1 = waitlist st ++ [email]).
  { pose proof (persist_waitlist (MongoCreate email) (SqlCreate email) st0) as H.
    rewrite Hp in H. simpl in H. rewrite H. unfold JsSet.add. by rewrite Hnew. }
  destruct (persist_trace (MongoCreate email) (SqlCreate email) st0) as (tail & Ht & _).
  rewrite Hp in Ht. simpl in Ht.
  exists st1, (record (Emit (onDuplicateEmail email)) st1), tail.
  assert (Hfirst : addEmail joi email st = (true, st1)).
  { unfold addEmail, validateEmailFormat. rewrite Hjoi. simpl. unfold_M.
    rewrite Hnew. fold st0. by rewrite Hp. }
  assert (Hdup : JsSet.has email (waitlist st1) = true).
  { rewrite Hw1. apply has_true. apply elem_of_app. right. by apply list_elem_of_singleton. }
  repeat split.
  - exact Hfirst.
  - exact Hw1.
  - rewrite Ht. by rewrite <- app_assoc.
  - unfold addEmail, validateEmailFormat. rewrite Hjoi. simpl. unfold_M.
    by rewrite Hdup.
  - simpl. unfold eventsOf. by rewrite omap_app.
Qed.

Lemma addEmail_twice_witness :
  exists st1 st2 tail,
    addEmail Sample.joi "a@x.com" Sample.localAcme = (true, st1)
    /\ waitlist st1 = waitlist Sample.localAcme ++ ["a@x.com"]
    /\ trace st1 = trace Sample.localAcme ++ Emit (onEmailAdded "a@x.com") :: tail
    /\ addEmail Sample.joi "a@x.com" st1 = (false, st2)
    /\ st2 = record (Emit (onDuplicateEmail "a@x.com")) st1
    /\ waitlist st2 = waitlist st1
    /\ trace st2 = trace st1 ++ [Emit (onDuplicateEmail "a@x.com")]
    /\ eventsOf (trace st2) = eventsOf (trace st1) ++ [onDuplicateEmail "a@x.com"].
Proof.
  apply (addEmail_twice Sample.joi "a@x.com" Sample.localAcme).
  - vm_compute. reflexivity.
  - vm_compute. reflexivity.
Defined.

(** ** Sending to an address that is not on the list *)

(** C7. When the address is not in the in-memory set, [sendConfirmation]
    and [sendConfirmationFromFile] return [false] and leave the state as it
    was: no mail reaches the transport, no file is read, no event is
    emitted. *)
Theorem send_absent_fails_closed
    (smtp : nat -> SendMailOptions -> Settled string)
    (fs : nat -> string -> Settled string)
    (regexpError : string -> option string)
    (regexpReplace : string -> string -> string -> string)
    (email : string) (subjectTemplate bodyTemplate : string -> string)
    (templateFilePath : string) (replacements : list (string * string))
    (st : State) :
  JsSet.has email (waitlist st) = false ->
  sendConfirmation smtp email subjectTemplate bodyTemplate st = (false, st)
  /\ sendConfirmationFromFile smtp fs regexpError regexpReplace email
       subjectTemplate templateFilePath replacements st = (false, st).
Proof.
  intros Habsent. split.
  - unfold sendConfirmation. unfold_M. by rewrite Habsent.
  - unfold sendConfirmationFromFile. by rewrite Habsent.
Qed.

Lemma send_absent_fails_closed_witness :
  sendConfirmation Sample.alwaysSends "ghost@x.com" Sample.subjectFn Sample.bodyFn
    Sample.localAcme = (false, Sample.localAcme)
  /\ sendConfirmationFromFile Sample.alwaysSends (Sample.fileWith "{{email}}")
       Sample.regexpError Sample.regexpReplace
       "ghost@x.com" Sample.subjectFn "welcome.html" [] Sample.localAcme
     = (false, Sample.localAcme).
Proof.
  apply (send_absent_fails_closed Sample.alwaysSends (Sample.fileWith "{{email}}")
           Sample.regexpError Sample.regexpReplace "ghost@x.com"
           Sample.subjectFn Sample.bodyFn "welcome.html" []
           Sample.localAcme).
  vm_compute. reflexivity.
Defined.

(** The mails [sendMail] hands over are addressed to its first argument. *)
Lemma sendMail_mails smtp email subject htmlContent st :
  exists l, mailsOf (trace (snd (sendMail smtp email subject htmlContent st)))
            = mailsOf (trace st) ++ l
            /\ Forall (fun m => to m = email) l.
Proof.
  unfold sendMail. unfold_M.
  destruct (truthy (auth_user (options (transporter st)))); simpl.
  - match goal with |- context [smtp ?n ?m] => destruct (smtp n m); simpl end;
      unfold mailsOf; rewrite !omap_app; simpl; rewrite app_nil_r;
      eexists [_]; (split; [reflexivity|]); by repeat constructor.
  - exists []. unfold mailsOf. rewrite omap_app. simpl. by rewrite app_nil_r.
Qed.

(** Only members are written to: every mail [sendConfirmation] hands to the
    transport is addressed to a member of the set. *)
Lemma sendConfirmation_mails_to_members smtp email subjectTemplate bodyTemplate st :
  exists l, mailsOf (trace (snd (sendConfirmation smtp email subjectTemplate bodyTemplate st)))
            = mailsOf (trace st) ++ l
            /\ Forall (fun m => to m ∈ waitlist st) l.
Proof.
  unfold sendConfirmation. unfold_M.
  destruct (JsSet.has email (waitlist st)) eqn:E; simpl.
  - match goal with |- context [sendMail smtp email ?s ?h st] =>
      destruct (sendMail_mails smtp email s h st) as (l & Hl & Hto) end.
    exists l. split; [exact Hl|].
    apply has_true in E. eapply Forall_impl; [exact Hto|].
    intros m ->. exact E.
  - exists []. by rewrite app_nil_r.
Qed.

(** ** countWaitlistByDate on the local storage *)

(** C8. With the local storage [countWaitlistByDate] returns the size of
    the in-memory set whatever the two optional bounds are, and changes
    nothing. *)
Theorem countWaitlistByDate_local
    (mongoCount : nat -> MongoQuery -> Settled nat)
    (sqlCount : nat -> SqlWhere -> Settled nat)
    (startDate endDate : option Z) (st : State) :
  storage st = storage_local ->
  countWaitlistByDate mongoCount sqlCount startDate endDate st
  = (length (waitlist st), st).
Proof.
  intros Hlocal. unfold countWaitlistByDate.
  rewrite bool_decide_eq_true_2 by exact Hlocal. reflexivity.
Qed.

Lemma countWaitlistByDate_local_witness :
  countWaitlistByDate Sample.noCount Sample.noCount (Some 1672531200000) (Some 0)
    (Sample.withMembers ["a@x.com"; "b@x.com"] Sample.localAcme)
  = (length (waitlist (Sample.withMembers ["a@x.com"; "b@x.com"] Sample.localAcme)),
     Sample.withMembers ["a@x.com"; "b@x.com"] Sample.localAcme).
Proof.
  apply (countWaitlistByDate_local Sample.noCount Sample.noCount
           (Some 1672531200000) (Some 0)
           (Sample.withMembers ["a@x.com"; "b@x.com"] Sample.localAcme)).
  vm_compute. reflexivity.
Defined.

Example countWaitlistByDate_local_two :
  fst (countWaitlistByDate Sample.noCount Sample.noCount None (Some 5)
         (Sample.withMembers ["a@x.com"; "b@x.com"] Sample.localAcme)) = 2%nat.
Proof. vm_compute. reflexivity. Qed.

(** ** getWaitlist *)

Lemma newArray_spec (l : list string) (st : State) :
  exists r, newArray l st = (r, set_heap (<[r := l]> (heap st)) st)
            /\ heap st !! r = None.
Proof.
  unfold newArray. eexists. split; [reflexivity|].
  apply not_elem_of_dom. apply is_fresh.
Qed.

(** C10. [getWaitlist] allocates a new array holding the members of the
    set in insertion order: the location was not in use before the call, the
    fields of the object are untouched, whatever the caller then does to the
    array leaves the set as it was, and a second call returns a different
    array with the same contents while the first one is still there. *)
Theorem getWaitlist_fresh_snapshot (st : State) :
  exists r1 st1,
    getWaitlist st = (r1, st1)
    /\ heap st1 !! r1 = Some (waitlist st)
    /\ (forall x, x ∈ default [] (heap st1 !! r1) <-> JsSet.has x (waitlist st) = true)
    /\ heap st !! r1 = None
    /\ waitlist st1 = waitlist st
    /\ trace st1 = trace st
    /\ (forall f, exists st2 r3 st3,
          mutateArray r1 f st1 = (tt, st2)
          /\ heap st2 !! r1 = Some (f (waitlist st))
          /\ waitlist st2 = waitlist st
          /\ getWaitlist st2 = (r3, st3)
          /\ r3 <> r1
          /\ heap st3 !! r3 = Some (waitlist st))
    /\ (exists r2 st2,
          getWaitlist st1 = (r2, st2)
          /\ r2 <> r1
          /\ heap st2 !! r2 = Some (waitlist st)
          /\ heap st2 !! r1 = Some (waitlist st)
          /\ waitlist st2 = waitlist st).
Proof.
  unfold getWaitlist. unfold_M. unfold JsSet.toArray.
  destruct (newArray_spec (waitlist st) st) as (r1 & H1 & Hfresh1).
  exists r1, (set_heap (<[r1 := waitlist st]> (heap st)) st).
  rewrite H1. simpl. rewrite lookup_insert_eq.
  split; [reflexivity|]. split; [reflexivity|].
  split; [intros x; simpl; symmetry; apply has_true|].
  split; [exact Hfresh1|]. split; [reflexivity|]. split; [reflexivity|].
  split.
  - intros f.
    set (st2 := set_heap (alter f r1 (<[r1 := waitlist st]> (heap st)))
                  (set_heap (<[r1 := waitlist st]> (heap st)) st)).
    destruct (newArray_spec (waitlist st) st2) as (r3 & H3 & Hfresh3).
    exists st2, r3, (set_heap (<[r3 := waitlist st]> (heap st2)) st2).
    assert (Hl : heap st2 !! r1 = Some (f (waitlist st))).
    { subst st2. simpl. rewrite lookup_alter_eq, lookup_insert_eq. reflexivity. }
    split; [reflexivity|]. split; [exact Hl|]. split; [reflexivity|].
    split; [exact H3|].
    split; [intros ->; rewrite Hl in Hfresh3; discriminate|].
    simpl. apply lookup_insert_eq.
  - set (st1 := set_heap (<[r1 := waitlist st]> (heap st)) st).
    destruct (newArray_spec (waitlist st) st1) as (r2 & H2 & Hfresh2).
    exists r2, (set_heap (<[r2 := waitlist st]> (heap st1)) st1).
    assert (Hne : r2 <> r1).
    { intros ->. subst st1. simpl in Hfresh2. rewrite lookup_insert_eq in Hfresh2.
      discriminate. }
    split; [exact H2|]. split; [exact Hne|]. simpl.
    split; [apply lookup_insert_eq|].
    split; [|reflexivity].
    rewrite lookup_insert_ne by exact Hne. apply lookup_insert_eq.
Qed.

(** ** What the send methods leave alone *)

Lemma sameFields_refl st : sameFields st st.
Proof. by repeat split. Qed.

Lemma sameFields_trans st1 st2 st3 :
  sameFields st1 st2 -> sameFields st2 st3 -> sameFields st1 st3.
Proof.
  unfold sameFields. intros (?&?&?&?&?&?&?) (?&?&?&?&?&?&?).
  repeat split; congruence.
Qed.

Lemma grows_refl p st : grows p st st.
Proof.
  split; [apply sameFields_refl|]. exists []. by rewrite app_nil_r.
Qed.

Lemma grows_trans p st1 st2 st3 :
  grows p st1 st2 -> grows p st2 st3 -> grows p st1 st3.
Proof.
  intros [F1 (t1 & H1 & P1)] [F2 (t2 & H2 & P2)].
  split; [by eapply sameFields_trans|].
  exists (t1 ++ t2). rewrite H2, H1, app_assoc. split; [reflexivity|].
  rewrite forallb_app. by rewrite P1, P2.
Qed.

Lemma grows_record p x st : p x = true -> grows p st (record x st).
Proof.
  intros Hx. split; [by repeat split|].
  exists [x]. split; [reflexivity|]. simpl. by rewrite Hx.
Qed.

Lemma grows_heap p h st : grows p st (set_heap h st).
Proof.
  split; [by repeat split|]. exists []. simpl. by rewrite app_nil_r.
Qed.

Lemma sendMail_grows smtp email subject htmlContent st :
  grows sendEffect st (snd (sendMail smtp email subject htmlContent st)).
Proof.
  unfold sendMail. unfold_M.
  destruct (truthy (auth_user (options (transporter st)))); simpl.
  - match goal with |- context [smtp ?n ?m] => destruct (smtp n m); simpl end;
      (eapply grows_trans; [apply grows_record|apply grows_record]; reflexivity).
  - by apply grows_record.
Qed.

Lemma sendConfirmation_grows smtp email subjectTemplate bodyTemplate st :
  grows sendEffect st (snd (sendConfirmation smtp email subjectTemplate bodyTemplate st)).
Proof.
  unfold sendConfirmation. unfold_M.
  destruct (JsSet.has email (waitlist st)); simpl.
  - apply sendMail_grows.
  - apply grows_refl.
Qed.

Lemma sendConfirmationFromFile_grows smtp fs regexpError regexpReplace
    email subjectTemplate path repl st :
  grows sendEffect st
    (snd (sendConfirmationFromFile smtp fs regexpError regexpReplace email
            subjectTemplate path repl st)).
Proof.
  unfold sendConfirmationFromFile.
  destruct (JsSet.has email (waitlist st)); simpl; [|apply grows_refl].
  destruct (fs _ path).
  - destruct (substituteEach _ _ _ _).
    + eapply grows_trans;
        [apply (grows_record sendEffect (ReadFile path)); reflexivity|].
      apply sendMail_grows.
    + unfold_M. simpl. eapply grows_trans; apply grows_record; reflexivity.
  - unfold_M. simpl. eapply grows_trans; apply grows_record; reflexivity.
Qed.

Lemma retryLoop_grows smtp todo attempt retries delayMs email sT bT st :
  grows sendEffect st
    (snd (retryLoop smtp todo attempt retries delayMs email sT bT st)).
Proof.
  revert attempt st. induction todo as [|todo IH]; intros attempt st; simpl.
  - apply grows_refl.
  - unfold_M.
    pose proof (sendConfirmation_grows smtp email sT bT st) as H1.
    destruct (sendConfirmation smtp email sT bT st) as [[] st1]; simpl in *.
    + exact H1.
    + eapply grows_trans; [exact H1|].
      eapply grows_trans; [apply (grows_record sendEffect (Emit (onEmailRetry email (attempt + 1)))); reflexivity|].
      destruct (attempt <? retries); simpl.
      * eapply grows_trans; [apply (grows_record sendEffect (Sleep delayMs)); reflexivity|].
        apply IH.
      * apply IH.
Qed.

Lemma bulkLoop_grows smtp emails successCount sT bT retries delayMs st :
  grows sendEffect st
    (snd (bulkLoop smtp emails successCount sT bT retries delayMs st)).
Proof.
  revert successCount st. induction emails as [|email rest IH]; intros n st; simpl.
  - apply grows_refl.
  - unfold_M. unfold sendConfirmationWithRetry.
    pose proof (retryLoop_grows smtp (Z.to_nat (retries + 1)) 0 retries delayMs
                  email sT bT st) as H1.
    destruct (retryLoop smtp _ 0 retries delayMs email sT bT st) as [r st1].
    eapply grows_trans; [exact H1|]. apply IH.
Qed.

(** ** Every member of a local list has been validated *)

Lemma sendEffect_not_backend x : sendEffect x = true -> negb (isBackend x) = true.
Proof. destruct x as [e| | | | | |]; try destruct e; simpl; congruence. Qed.

Lemma grows_noBackend p st st' :
  (forall x, p x = true -> negb (isBackend x) = true) ->
  grows p st st' -> noBackend st -> noBackend st'.
Proof.
  intros Hp [_ (tail & Ht & Hall)] Hst. unfold noBackend in *.
  rewrite Ht, forallb_app, Hst. simpl.
  apply forallb_forall. intros x Hx. apply Hp.
  rewrite forallb_forall in Hall. by apply Hall.
Qed.

Lemma local_uses_no_backend st :
  storage st = storage_local -> usesMongo st = false /\ usesSql st = false.
Proof.
  intros H. unfold usesMongo, usesSql. rewrite H. split; reflexivity.
Qed.

Lemma persist_local mongoCall sqlCall st :
  storage st = storage_local -> persist mongoCall sqlCall st = (tt, st).
Proof.
  intros H. destruct (local_uses_no_backend st H) as [Hm Hs].
  unfold persist. by rewrite Hm, Hs.
Qed.

Lemma persist_storage mongoCall sqlCall st :
  storage (snd (persist mongoCall sqlCall st)) = storage st.
Proof. unfold persist. unfold_M. repeat case_match; reflexivity. Qed.

(** [addEmail] only inserts what the validator accepted; this holds for
    every storage. *)
Lemma addEmail_validated joi email st :
  validated joi st -> validated joi (snd (addEmail joi email st)).
Proof.
  intros Hst. unfold validated, addEmail, validateEmailFormat in *.
  destruct (joi email) eqn:Hj; simpl; [exact Hst|].
  unfold_M. destruct (JsSet.has email (waitlist st)) eqn:Hhas; simpl; [exact Hst|].
  match goal with |- context [persist ?a ?b ?s] =>
    pose proof (persist_waitlist a b s) as Hw; destruct (persist a b s) end.
  simpl in *. rewrite Hw. unfold JsSet.add. rewrite Hhas.
  apply Forall_app. split; [exact Hst|]. by repeat constructor.
Qed.

(** [removeEmail] and [clearWaitlist] only take members away. *)
Lemma removeEmail_validated joi email st :
  validated joi st -> validated joi (snd (removeEmail email st)).
Proof.
  intros Hst. unfold validated, removeEmail in *. unfold_M.
  destruct (JsSet.has email (waitlist st)); simpl; [|exact Hst].
  match goal with |- context [persist ?a ?b ?s] =>
    pose proof (persist_waitlist a b s) as Hw; destruct (persist a b s) end.
  simpl in *. rewrite Hw. apply Forall_forall. intros x Hx.
  apply elem_of_delete in Hx as [_ Hx].
  rewrite Forall_forall in Hst. by apply Hst.
Qed.

Lemma clearWaitlist_validated joi st :
  validated joi (snd (clearWaitlist st)).
Proof.
  unfold validated, clearWaitlist. unfold_M.
  match goal with |- context [persist ?a ?b ?s] =>
    pose proof (persist_waitlist a b s) as Hw; destruct (persist a b s) end.
  simpl in *. rewrite Hw. constructor.
Qed.

Lemma removeEmail_subset email st x :
  x ∈ waitlist (snd (removeEmail email st)) -> x ∈ waitlist st.
Proof.
  unfold removeEmail. unfold_M.
  destruct (JsSet.has email (waitlist st)); simpl; [|done].
  match goal with |- context [persist ?a ?b ?s] =>
    pose proof (persist_waitlist a b s) as Hw; destruct (persist a b s) end.
  simpl in *. rewrite Hw. rewrite elem_of_delete. tauto.
Qed.

Lemma findEmailsByPattern_sameFields mongoFind sqlFind regexpError pattern st :
  sameFields st (snd (findEmailsByPattern mongoFind sqlFind regexpError pattern st)).
Proof.
  unfold findEmailsByPattern, newArray. unfold_M.
  destruct (bool_decide (storage st = storage_local)); [by repeat split|].
  destruct (usesMongo st);
    [destruct (regexpError pattern); [|destruct (mongoFind _ pattern)];
     by repeat split|].
  destruct (usesSql st); [destruct (sqlFind _ pattern); by repeat split|].
  by repeat split.
Qed.

Lemma countWaitlistByDate_sameFields mongoCount sqlCount startDate endDate st :
  sameFields st (snd (countWaitlistByDate mongoCount sqlCount startDate endDate st)).
Proof.
  unfold countWaitlistByDate. unfold_M.
  destruct (bool_decide (storage st = storage_local)); [by repeat split|].
  destruct (usesMongo st); [destruct (mongoCount _ _); by repeat split|].
  destruct (usesSql st); [destruct (sqlCount _ _); by repeat split|].
  by repeat split.
Qed.

Section LocalRuns.

Variable joi : string -> option string.
Variable smtp : nat -> SendMailOptions -> Settled string.
Variable fs : nat -> string -> Settled string.
Variable mongoCount : nat -> MongoQuery -> Settled nat.
Variable sqlCount : nat -> SqlWhere -> Settled nat.
Variable mongoFind : nat -> string -> Settled (list string).
Variable sqlFind : nat -> string -> Settled (list string).
Variable regexpError : string -> option string.
Variable regexpReplace : string -> string -> string -> string.

Let run' := run joi smtp fs mongoCount sqlCount mongoFind sqlFind
    regexpError regexpReplace.

Lemma grows_localInv st st' :
  grows sendEffect st st' -> localInv joi st -> localInv joi st'.
Proof.
  intros Hg (Hl & Hv & Hb).
  pose proof Hg as [(Hs & Hw & _) _].
  repeat split.
  - congruence.
  - unfold validated. by rewrite Hw.
  - eapply grows_noBackend; [apply sendEffect_not_backend|exact Hg|exact Hb].
Qed.

Lemma noBackend_record x st :
  negb (isBackend x) = true -> noBackend st -> noBackend (record x st).
Proof.
  intros Hx Hst. unfold noBackend in *. simpl.
  rewrite forallb_app, Hst. simpl. by rewrite Hx.
Qed.

Lemma run_localInv op st v st' :
  localInv joi st -> run' op st = (v, st') -> localInv joi st'.
Proof.
  intros Hinv. pose proof Hinv as (Hl & Hv & Hb).
  destruct (local_uses_no_backend st Hl) as [Hm Hs].
  unfold run'. destruct op; simpl; unfold lift.
  - (* addEmail *)
    pose proof (addEmail_validated joi email st Hv) as Hv'.
    revert Hv'. unfold addEmail, validateEmailFormat.
    destruct (joi email); simpl; unfold_M.
    + intros Hv' [= <- <-]. repeat split; [exact Hl|exact Hv|].
      by apply noBackend_record.
    + destruct (JsSet.has email (waitlist st)); simpl.
      * intros Hv' [= <- <-]. repeat split; [exact Hl|exact Hv|].
        by apply noBackend_record.
      * rewrite persist_local by exact Hl. simpl.
        intros Hv' [= <- <-]. repeat split; [exact Hl|exact Hv'|].
        by apply noBackend_record.
  - (* removeEmail *)
    pose proof (removeEmail_validated joi email st Hv) as Hv'.
    revert Hv'. unfold removeEmail. unfold_M.
    destruct (JsSet.has email (waitlist st)); simpl.
    + rewrite persist_local by exact Hl. simpl.
      intros Hv' [= <- <-]. repeat split; [exact Hl|exact Hv'|].
      by apply noBackend_record.
    + intros _ [= <- <-]. exact Hinv.
  - (* getWaitlist *)
    unfold getWaitlist, newArray. unfold_M. intros [= <- <-]. exact Hinv.
  - (* clearWaitlist *)
    unfold clearWaitlist. unfold_M. rewrite persist_local by exact Hl. simpl.
    intros [= <- <-]. repeat split; [exact Hl|constructor|].
    by apply noBackend_record.
  - (* isInitialized *)
    unfold isInitialized. unfold_M. intros [= <- <-]. exact Hinv.
  - (* findEmailsByPattern *)
    unfold findEmailsByPattern.
    rewrite bool_decide_eq_true_2 by exact Hl.
    unfold newArray. unfold_M. intros [= <- <-]. exact Hinv.
  - (* countWaitlistByDate *)
    unfold countWaitlistByDate.
    rewrite bool_decide_eq_true_2 by exact Hl.
    intros [= <- <-]. exact Hinv.
  - (* sendConfirmation *)
    pose proof (sendConfirmation_grows smtp email subjectTemplate bodyTemplate st) as Hg.
    destruct (sendConfirmation smtp email subjectTemplate bodyTemplate st).
    intros [= <- <-]. by eapply grows_localInv.
  - (* sendConfirmationFromFile *)
    pose proof (sendConfirmationFromFile_grows smtp fs regexpError regexpReplace
                  email subjectTemplate templateFilePath replacements st) as Hg.
    destruct (sendConfirmationFromFile smtp fs regexpError regexpReplace email
                subjectTemplate templateFilePath replacements st).
    intros [= <- <-]. by eapply grows_localInv.
  - (* sendConfirmationWithRetry *)
    unfold sendConfirmationWithRetry.
    pose proof (retryLoop_grows smtp (Z.to_nat (retries + 1)) 0 retries delayMs
                  email subjectTemplate bodyTemplate st) as Hg.
    destruct (retryLoop smtp _ 0 retries delayMs email subjectTemplate bodyTemplate st).
    intros [= <- <-]. by eapply grows_localInv.
  - (* sendBulkConfirmation *)
    unfold sendBulkConfirmation, getWaitlist, newArray. unfold_M.
    match goal with |- context [bulkLoop smtp ?l ?n ?a ?b ?c ?d ?s] =>
      pose proof (bulkLoop_grows smtp l n a b c d s) as Hg;
      destruct (bulkLoop smtp l n a b c d s) as [k st1] end.
    intros [= <- <-]. simpl in Hg.
    assert (Hinv1 : localInv joi st1).
    { eapply grows_localInv; [exact Hg|]. exact Hinv. }
    destruct Hinv1 as (Hl1 & Hv1 & Hb1).
    repeat split; [exact Hl1|exact Hv1|]. by apply noBackend_record.
Qed.

Lemma pending_local cb st :
  noBackend st -> pending cb st = true ->
  (exists error, cb = verifyDone error) \/ cb = localTimerFired.
Proof.
  intros Hb Hp.
  assert (Hno : forall q, (forall x, q x = true -> isBackend x = true) ->
                          existsb q (trace st) = true -> False).
  { intros q Hq Hex. apply existsb_exists in Hex as (x & Hin & Hqx).
    unfold noBackend in Hb. rewrite forallb_forall in Hb.
    specialize (Hb x Hin). rewrite (Hq x Hqx) in Hb. discriminate. }
  destruct cb; simpl in Hp; eauto;
    exfalso; (eapply Hno; [|exact Hp]);
    intros [| | | | | |c]; try discriminate; reflexivity.
Qed.

Lemma resume_localInv cb st st' :
  localInv joi st -> pending cb st = true -> resume cb st = (tt, st') -> localInv joi st'.
Proof.
  intros (Hl & Hv & Hb) Hp.
  destruct (pending_local cb st Hb Hp) as [[error ->]| ->]; simpl.
  - destruct error; unfold_M; intros [= <-];
      (repeat split; [exact Hl|exact Hv|]); by apply noBackend_record.
  - unfold_M. intros [= <-].
    repeat split; [exact Hl|exact Hv|]. by apply noBackend_record.
Qed.

Lemma run_storage op st v st' :
  run' op st = (v, st') -> storage st' = storage st.
Proof.
  unfold run'. destruct op; simpl; unfold lift.
  - unfold addEmail, validateEmailFormat. destruct (joi email); simpl; unfold_M.
    + by intros [= <- <-].
    + destruct (JsSet.has email (waitlist st)); simpl; [by intros [= <- <-]|].
      match goal with |- context [persist ?a ?b ?s] =>
        pose proof (persist_storage a b s) as Hw; destruct (persist a b s) end.
      by intros [= <- <-].
  - unfold removeEmail. unfold_M.
    destruct (JsSet.has email (waitlist st)); simpl; [|by intros [= <- <-]].
    match goal with |- context [persist ?a ?b ?s] =>
      pose proof (persist_storage a b s) as Hw; destruct (persist a b s) end.
    by intros [= <- <-].
  - unfold getWaitlist, newArray. unfold_M. by intros [= <- <-].
  - unfold clearWaitlist. unfold_M.
    match goal with |- context [persist ?a ?b ?s] =>
      pose proof (persist_storage a b s) as Hw; destruct (persist a b s) end.
    by intros [= <- <-].
  - unfold isInitialized. unfold_M. by intros [= <- <-].
  - pose proof (findEmailsByPattern_sameFields mongoFind sqlFind regexpError pattern st)
      as (Hs & _).
    destruct (findEmailsByPattern mongoFind sqlFind regexpError pattern st).
    by intros [= <- <-].
  - pose proof (countWaitlistByDate_sameFields mongoCount sqlCount startDate
                  endDate st) as (Hs & _).
    destruct (countWaitlistByDate mongoCount sqlCount startDate endDate st).
    by intros [= <- <-].
  - pose proof (sendConfirmation_grows smtp email subjectTemplate bodyTemplate st)
      as [(Hs & _) _].
    destruct (sendConfirmation smtp email subjectTemplate bodyTemplate st).
    by intros [= <- <-].
  - pose proof (sendConfirmationFromFile_grows smtp fs regexpError regexpReplace
                  email subjectTemplate templateFilePath replacements st)
      as [(Hs & _) _].
    destruct (sendConfirmationFromFile smtp fs regexpError regexpReplace email
                subjectTemplate templateFilePath replacements st).
    by intros [= <- <-].
  - unfold sendConfirmationWithRetry.
    pose proof (retryLoop_grows smtp (Z.to_nat (retries + 1)) 0 retries delayMs
                  email subjectTemplate bodyTemplate st) as [(Hs & _) _].
    destruct (retryLoop smtp _ 0 retries delayMs email subjectTemplate bodyTemplate st).
    by intros [= <- <-].
  - unfold sendBulkConfirmation, getWaitlist, newArray. unfold_M.
    match goal with |- context [bulkLoop smtp ?l ?n ?a ?b ?c ?d ?s] =>
      pose proof (bulkLoop_grows smtp l n a b c d s) as [(Hs & _) _];
      destruct (bulkLoop smtp l n a b c d s) as [k st1] end.
    by intros [= <- <-].
Qed.

(** How a public call can change the set: not at all, by one insertion,
    by one removal, or by emptying it. *)
Lemma run_waitlist op st v st' :
  run' op st = (v, st') ->
  waitlist st' = waitlist st
  \/ (exists email, waitlist st' = JsSet.add email (waitlist st))
  \/ (exists email, waitlist st' = JsSet.delete email (waitlist st))
  \/ waitlist st' = [].
Proof.
  unfold run'. destruct op; simpl; unfold lift.
  - unfold addEmail, validateEmailFormat. destruct (joi email); simpl; unfold_M.
    + intros [= <- <-]. by left.
    + destruct (JsSet.has email (waitlist st)); simpl; [intros [= <- <-]; by left|].
      match goal with |- context [persist ?a ?b ?s] =>
        pose proof (persist_waitlist a b s) as Hw; destruct (persist a b s) end.
      intros [= <- <-]. right. left. exists email. exact Hw.
  - unfold removeEmail. unfold_M.
    destruct (JsSet.has email (waitlist st)); simpl; [|intros [= <- <-]; by left].
    match goal with |- context [persist ?a ?b ?s] =>
      pose proof (persist_waitlist a b s) as Hw; destruct (persist a b s) end.
    intros [= <- <-]. right. right. left. exists email. exact Hw.
  - unfold getWaitlist, newArray. unfold_M. intros [= <- <-]. by left.
  - unfold clearWaitlist. unfold_M.
    match goal with |- context [persist ?a ?b ?s] =>
      pose proof (persist_waitlist a b s) as Hw; destruct (persist a b s) end.
    intros [= <- <-]. right. right. right. exact Hw.
  - unfold isInitialized. unfold_M. intros [= <- <-]. by left.
  - pose proof (findEmailsByPattern_sameFields mongoFind sqlFind regexpError pattern st)
      as (_ & Hw & _).
    destruct (findEmailsByPattern mongoFind sqlFind regexpError pattern st).
    intros [= <- <-]. by left.
  - pose proof (countWaitlistByDate_sameFields mongoCount sqlCount startDate
                  endDate st) as (_ & Hw & _).
    destruct (countWaitlistByDate mongoCount sqlCount startDate endDate st).
    intros [= <- <-]. by left.
  - pose proof (sendConfirmation_grows smtp email subjectTemplate bodyTemplate st)
      as [(_ & Hw & _) _].
    destruct (sendConfirmation smtp email subjectTemplate bodyTemplate st).
    intros [= <- <-]. by left.
  - pose proof (sendConfirmationFromFile_grows smtp fs regexpError regexpReplace
                  email subjectTemplate templateFilePath replacements st)
      as [(_ & Hw & _) _].
    destruct (sendConfirmationFromFile smtp fs regexpError regexpReplace email
                subjectTemplate templateFilePath replacements st).
    intros [= <- <-]. by left.
  - unfold sendConfirmationWithRetry.
    pose proof (retryLoop_grows smtp (Z.to_nat (retries + 1)) 0 retries delayMs
                  email subjectTemplate bodyTemplate st) as [(_ & Hw & _) _].
    destruct (retryLoop smtp _ 0 retries delayMs email subjectTemplate bodyTemplate st).
    intros [= <- <-]. by left.
  - unfold sendBulkConfirmation, getWaitlist, newArray. unfold_M.
    match goal with |- context [bulkLoop smtp ?l ?n ?a ?b ?c ?d ?s] =>
      pose proof (bulkLoop_grows smtp l n a b c d s) as [(_ & Hw & _) _];
      destruct (bulkLoop smtp l n a b c d s) as [k st1] end.
    intros [= <- <-]. by left.
Qed.

Lemma hydrate_NoDup docs (w : list string) :
  NoDup w -> NoDup (foldl (fun w e => JsSet.add e w) w docs).
Proof.
  revert w. induction docs as [|d docs IH]; intros w Hw; simpl; [exact Hw|].
  apply IH. by apply add_NoDup.
Qed.

Lemma resume_NoDup cb st st' :
  NoDup (waitlist st) -> resume cb st = (tt, st') -> NoDup (waitlist st').
Proof.
  intros Hw.
  destruct cb as [[e|]| |[]|[]|[]|[]|[]|]; simpl; unfold hydrate; unfold_M;
    intros [= <-]; simpl; try exact Hw; by apply hydrate_NoDup.
Qed.

Lemma resume_storage cb st st' :
  resume cb st = (tt, st') -> storage st' = storage st.
Proof.
  destruct cb as [[e|]| |[]|[]|[]|[]|[]|]; simpl; unfold hydrate; unfold_M;
    by intros [= <-].
Qed.

Lemma new_localInv mailConfig options st :
  new_WaitlistMailer storage_local mailConfig options = Returned st -> localInv joi st.
Proof.
  unfold new_WaitlistMailer. intros [= <-].
  repeat split; try constructor. 
Qed.

End LocalRuns.

Lemma new_fields storage0 mailConfig opts st :
  new_WaitlistMailer storage0 mailConfig opts = Returned st ->
  transporter st = createTransport mailConfig
  /\ waitlist st = []
  /\ eventsOf (trace st) = []
  /\ mailsOf (trace st) = [].
Proof.
  unfold new_WaitlistMailer. intros [= <-].
  destruct (usesMongo _); [by repeat split|].
  destruct (usesSql _); by repeat split.
Qed.

Lemma new_storage storage0 mailConfig options st :
  new_WaitlistMailer storage0 mailConfig options = Returned st ->
  storage st = storage0.
Proof.
  unfold new_WaitlistMailer. intros [= <-]. repeat case_match; reflexivity.
Qed.

Lemma reachable_localInv joi smtp fs mongoCount sqlCount mongoFind sqlFind
    regexpError regexpReplace st :
  reachable joi smtp fs mongoCount sqlCount mongoFind sqlFind
    regexpError regexpReplace st ->
  storage st = storage_local ->
  localInv joi st.
Proof.
  induction 1 as [storage0 mailConfig options st Hnew
                 |op st v st' Hreach IH Hrun
                 |cb st st' Hreach IH Hpending Hresume]; intros Hlocal.
  - pose proof (new_storage _ _ _ _ Hnew) as Hs. rewrite Hlocal in Hs. subst storage0.
    by eapply new_localInv.
  - eapply run_localInv; [|exact Hrun]. apply IH.
    by rewrite <- (run_storage _ _ _ _ _ _ _ _ _ _ _ _ _ Hrun).
  - eapply resume_localInv; [|exact Hpending|exact Hresume]. apply IH.
    by rewrite <- (resume_storage _ _ _ Hresume).
Qed.

(** X21. The list is a set in every state an instance can reach from its
    constructor by calls of the eleven methods of [Op] and by the callbacks
    that are pending, in any order and whatever the storage: no address
    occurs twice, neither after an [addEmail] of an address the list holds
    nor after a load that brings an address twice or brings one that was
    added in the meantime. *)
Lemma reachable_NoDup joi smtp fs mongoCount sqlCount mongoFind sqlFind
    regexpError regexpReplace st :
  reachable joi smtp fs mongoCount sqlCount mongoFind sqlFind
    regexpError regexpReplace st ->
  NoDup (waitlist st).
Proof.
  induction 1 as [storage0 mailConfig options st Hnew
                 |op st v st' Hreach IH Hrun
                 |cb st st' Hreach IH Hpending Hresume].
  - destruct (new_fields _ _ _ _ Hnew) as (_ & -> & _). constructor.
  - destruct (run_waitlist _ _ _ _ _ _ _ _ _ _ _ _ _ Hrun)
      as [->|[[email ->]|[[email ->]| ->]]].
    + exact IH.
    + by apply add_NoDup.
    + by apply delete_NoDup.
    + constructor.
  - by eapply resume_NoDup.
Qed.

(** C9. With the local storage, every state an instance can reach (by
    public calls and by the callbacks its constructor registered, in any
    order) holds only addresses the validator accepted.  The steps are
    [addEmail_validated], [removeEmail_validated] and
    [clearWaitlist_validated]: [addEmail] inserts only after the validation,
    the other two only take members away. *)
Theorem local_members_validated
    (joi : string -> option string)
    (smtp : nat -> SendMailOptions -> Settled string)
    (fs : nat -> string -> Settled string)
    (mongoCount : nat -> MongoQuery -> Settled nat)
    (sqlCount : nat -> SqlWhere -> Settled nat)
    (mongoFind sqlFind : nat -> string -> Settled (list string))
    (regexpError : string -> option string)
    (regexpReplace : string -> string -> string -> string)
    (st : State) :
  reachable joi smtp fs mongoCount sqlCount mongoFind sqlFind
    regexpError regexpReplace st ->
  storage st = storage_local ->
  forall email, JsSet.has email (waitlist st) = true -> joi email = None.
Proof.
  intros Hreach Hlocal email Hin.
  destruct (reachable_localInv _ _ _ _ _ _ _ _ _ _ Hreach Hlocal) as (_ & Hv & _).
  unfold validated in Hv. rewrite Forall_forall in Hv.
  apply Hv. by apply has_true.
Qed.

Lemma local_members_validated_witness :
  Sample.joi "b@x.com" = None.
Proof.
  apply (local_members_validated Sample.joi Sample.alwaysSends Sample.noFile
           Sample.noCount Sample.noCount Sample.noFind Sample.noFind
           Sample.regexpError Sample.regexpReplace
           (Sample.withMembers ["a@x.com"; "b@x.com"] Sample.localAcme)).
  - apply (reach_call _ _ _ _ _ _ _ _ _ (op_addEmail "b@x.com")
             (Sample.withMembers ["a@x.com"] Sample.localAcme) (VBool true)).
    + apply (reach_call _ _ _ _ _ _ _ _ _ (op_addEmail "a@x.com")
               Sample.localAcme (VBool true)).
      * apply (reach_new _ _ _ _ _ _ _ _ _ storage_local Sample.mailConfig
                 (Some Sample.acme)).
        reflexivity.
      * vm_compute. reflexivity.
    + vm_compute. reflexivity.
  - vm_compute. reflexivity.
  - vm_compute. reflexivity.
Defined.

(** ** The initialization flag *)

Lemma flagBlind_ret {A} (a : A) : flagBlind (ret a).
Proof. intros b st. reflexivity. Qed.

Lemma flagBlind_bind {A B} (m : M A) (k : A -> M B) :
  flagBlind m -> (forall a, flagBlind (k a)) -> flagBlind (bind m k).
Proof.
  intros Hm Hk b st. unfold bind. rewrite Hm.
  destruct (m st) as [a st1]. apply Hk.
Qed.

Lemma flagBlind_record x : flagBlind (modify (record x)).
Proof. intros b st. reflexivity. Qed.

Lemma flagBlind_persist mongoCall sqlCall : flagBlind (persist mongoCall sqlCall).
Proof.
  intros b st. unfold persist, usesMongo, usesSql. unfold_M. simpl.
  repeat case_match; reflexivity.
Qed.

Lemma flagBlind_newArray l : flagBlind (newArray l).
Proof. intros b st. reflexivity. Qed.

Lemma flagBlind_addEmail joi email : flagBlind (addEmail joi email).
Proof.
  unfold addEmail. destruct (negb (isValid (validateEmailFormat joi email))).
  - apply flagBlind_bind; [apply flagBlind_record|]. intros _. apply flagBlind_ret.
  - apply flagBlind_bind; [intros b st; reflexivity|]. intros [|].
    + apply flagBlind_bind; [apply flagBlind_record|]. intros _. apply flagBlind_ret.
    + apply flagBlind_bind; [intros b st; reflexivity|]. intros _.
      apply flagBlind_bind; [apply flagBlind_record|]. intros _.
      apply flagBlind_bind; [apply flagBlind_persist|]. intros _.
      apply flagBlind_ret.
Qed.

Lemma flagBlind_removeEmail email : flagBlind (removeEmail email).
Proof.
  unfold removeEmail.
  apply flagBlind_bind; [intros b st; reflexivity|]. intros [|]; simpl.
  - apply flagBlind_bind; [intros b st; reflexivity|]. intros _.
    apply flagBlind_bind; [apply flagBlind_record|]. intros _.
    apply flagBlind_bind; [apply flagBlind_persist|]. intros _.
    apply flagBlind_ret.
  - apply flagBlind_ret.
Qed.

Lemma flagBlind_clearWaitlist : flagBlind clearWaitlist.
Proof.
  unfold clearWaitlist.
  apply flagBlind_bind; [intros b st; reflexivity|]. intros _.
  apply flagBlind_bind; [apply flagBlind_record|]. intros _.
  apply flagBlind_persist.
Qed.

Lemma flagBlind_getWaitlist : flagBlind getWaitlist.
Proof. intros b st. reflexivity. Qed.

Lemma flagBlind_findEmailsByPattern mongoFind sqlFind regexpError pattern :
  flagBlind (findEmailsByPattern mongoFind sqlFind regexpError pattern).
Proof.
  intros b st. unfold findEmailsByPattern, usesMongo, usesSql, occurrences, newArray.
  unfold_M. simpl.
  destruct (bool_decide (storage st = storage_local)); [reflexivity|].
  destruct (bool_decide (storage st = storage_db) && truthy (mongoUri st));
    [destruct (regexpError pattern); [|destruct (mongoFind _ pattern)];
     reflexivity|].
  destruct (bool_decide (storage st = storage_sql)
            && bool_decide (is_Some (sqlConnection st)));
    [destruct (sqlFind _ pattern); reflexivity|].
  reflexivity.
Qed.

Lemma flagBlind_countWaitlistByDate mongoCount sqlCount startDate endDate :
  flagBlind (countWaitlistByDate mongoCount sqlCount startDate endDate).
Proof.
  intros b st. unfold countWaitlistByDate, usesMongo, usesSql, occurrences.
  unfold_M. simpl.
  destruct (bool_decide (storage st = storage_local)); [reflexivity|].
  destruct (bool_decide (storage st = storage_db) && truthy (mongoUri st));
    [destruct (mongoCount _ _); reflexivity|].
  destruct (bool_decide (storage st = storage_sql)
            && bool_decide (is_Some (sqlConnection st)));
    [destruct (sqlCount _ _); reflexivity|].
  reflexivity.
Qed.

Lemma flagBlind_sendMail smtp email subject htmlContent :
  flagBlind (sendMail smtp email subject htmlContent).
Proof.
  intros b st. unfold sendMail, occurrences. unfold_M. simpl.
  destruct (truthy (auth_user (options (transporter st)))); simpl; [|reflexivity].
  match goal with |- context [smtp ?n ?m] => destruct (smtp n m) end; reflexivity.
Qed.

Lemma flagBlind_sendConfirmation smtp email subjectTemplate bodyTemplate :
  flagBlind (sendConfirmation smtp email subjectTemplate bodyTemplate).
Proof.
  intros b st. unfold sendConfirmation. unfold_M. simpl.
  destruct (JsSet.has email (waitlist st)); simpl; [|reflexivity].
  apply flagBlind_sendMail.
Qed.

Lemma flagBlind_retryLoop smtp todo attempt retries delayMs email sT bT :
  flagBlind (retryLoop smtp todo attempt retries delayMs email sT bT).
Proof.
  revert attempt. induction todo as [|todo IH]; intros attempt; simpl.
  - apply flagBlind_ret.
  - apply flagBlind_bind; [apply flagBlind_sendConfirmation|].
    intros [|]; [apply flagBlind_ret|].
    apply flagBlind_bind; [apply flagBlind_record|]. intros _.
    apply flagBlind_bind; [|intros _; apply IH].
    destruct (attempt <? retries); [apply flagBlind_record|apply flagBlind_ret].
Qed.

Lemma flagBlind_bulkLoop smtp emails successCount sT bT retries delayMs :
  flagBlind (bulkLoop smtp emails successCount sT bT retries delayMs).
Proof.
  revert successCount. induction emails as [|email rest IH]; intros n; simpl.
  - apply flagBlind_ret.
  - apply flagBlind_bind; [apply flagBlind_retryLoop|]. intros r. apply IH.
Qed.

Lemma flagBlind_sendBulkConfirmation smtp sT bT retries delayMs :
  flagBlind (sendBulkConfirmation smtp sT bT retries delayMs).
Proof.
  unfold sendBulkConfirmation.
  apply flagBlind_bind; [apply flagBlind_getWaitlist|]. intros r.
  apply flagBlind_bind; [intros b st; reflexivity|]. intros emails.
  apply flagBlind_bind; [apply flagBlind_bulkLoop|]. intros n.
  apply flagBlind_bind; [apply flagBlind_record|]. intros _.
  apply flagBlind_ret.
Qed.

Lemma flagBlind_sendConfirmationFromFile smtp fs regexpError regexpReplace
    email sT path repl :
  flagBlind (sendConfirmationFromFile smtp fs regexpError regexpReplace
               email sT path repl).
Proof.
  intros b st. unfold sendConfirmationFromFile, occurrences. simpl.
  destruct (JsSet.has email (waitlist st)); simpl; [|reflexivity].
  destruct (fs _ path); [|reflexivity].
  destruct (substituteEach _ _ _ _); [|reflexivity].
  match goal with |- context [sendMail smtp ?a ?c ?d (record ?x st)] =>
    change (record x (set_initialized b st)) with (set_initialized b (record x st));
    apply (flagBlind_sendMail smtp a c d b (record x st))
  end.
Qed.

(** C1, as the code has it.  No public operation consults the
    initialization flag.  Whatever the state, initialized or not, a call of
    [addEmail], [removeEmail], [clearWaitlist], [getWaitlist],
    [findEmailsByPattern], [countWaitlistByDate] or of one of the four send
    methods is carried out on the set as it is at that moment: its result
    and what it does to the set, to the arrays and to the trace of events,
    mails and backend commands are those of the same call on the state that
    differs in the flag only.  So no call fails for want of initialization
    and none is put off until Ready; the only difference between a call
    before Ready and one after it lies in what the load has meanwhile
    brought into the set.  [isInitialized] is the one method left out: it
    returns the flag. *)
Theorem operations_ignore_initialized
    (joi : string -> option string)
    (smtp : nat -> SendMailOptions -> Settled string)
    (fs : nat -> string -> Settled string)
    (mongoCount : nat -> MongoQuery -> Settled nat)
    (sqlCount : nat -> SqlWhere -> Settled nat)
    (mongoFind sqlFind : nat -> string -> Settled (list string))
    (regexpError : string -> option string)
    (regexpReplace : string -> string -> string -> string)
    (op : Op) (b : bool) (st : State) :
  readsFlag op = false ->
  let call := run joi smtp fs mongoCount sqlCount mongoFind sqlFind
                regexpError regexpReplace op in
  call (set_initialized b st) = (fst (call st), set_initialized b (snd (call st)))
  /\ fst (call (set_initialized b st)) = fst (call st)
  /\ waitlist (snd (call (set_initialized b st))) = waitlist (snd (call st))
  /\ heap (snd (call (set_initialized b st))) = heap (snd (call st))
  /\ trace (snd (call (set_initialized b st))) = trace (snd (call st))
  /\ initialized (snd (call (set_initialized b st))) = b.
Proof.
  intros Hop call.
  assert (Hcall : call (set_initialized b st)
                  = (fst (call st), set_initialized b (snd (call st)))).
  { assert (Hlift : forall A (v : A -> Value) (m : M A),
               flagBlind m ->
               lift v m (set_initialized b st)
               = (fst (lift v m st), set_initialized b (snd (lift v m st)))).
    { intros A v m Hm. unfold lift. rewrite Hm. by destruct (m st). }
    subst call. destruct op; simpl in *; try discriminate.
    - apply Hlift, flagBlind_addEmail.
    - apply Hlift, flagBlind_removeEmail.
    - apply Hlift, flagBlind_getWaitlist.
    - apply Hlift, flagBlind_clearWaitlist.
    - apply Hlift, flagBlind_findEmailsByPattern.
    - apply Hlift, flagBlind_countWaitlistByDate.
    - apply Hlift, flagBlind_sendConfirmation.
    - apply Hlift, flagBlind_sendConfirmationFromFile.
    - apply Hlift. apply flagBlind_retryLoop.
    - apply Hlift, flagBlind_sendBulkConfirmation. }
  rewrite Hcall. by repeat split.
Qed.

Lemma operations_ignore_initialized_witness :
  let call :=
    run Sample.joi Sample.alwaysSends Sample.noFile Sample.noCount Sample.noCount
      Sample.noFind Sample.noFind Sample.regexpError Sample.regexpReplace
      (op_addEmail "a@x.com") in
  initialized Sample.connecting = false
  /\ call Sample.connecting
     = (VBool true,
        record (Backend (MongoCreate "a@x.com"))
          (record (Emit (onEmailAdded "a@x.com"))
             (set_waitlist ["a@x.com"] Sample.connecting)))
  /\ call (set_initialized true Sample.connecting)
     = (VBool true,
        set_initialized true
          (record (Backend (MongoCreate "a@x.com"))
             (record (Emit (onEmailAdded "a@x.com"))
                (set_waitlist ["a@x.com"] Sample.connecting)))).
Proof.
  cbn zeta.
  assert (Hcall :
    run Sample.joi Sample.alwaysSends Sample.noFile Sample.noCount Sample.noCount
      Sample.noFind Sample.noFind Sample.regexpError Sample.regexpReplace
      (op_addEmail "a@x.com") Sample.connecting
    = (VBool true,
       record (Backend (MongoCreate "a@x.com"))
         (record (Emit (onEmailAdded "a@x.com"))
            (set_waitlist ["a@x.com"] Sample.connecting))))
    by (vm_compute; reflexivity).
  split; [reflexivity|]. split; [exact Hcall|].
  destruct (operations_ignore_initialized Sample.joi Sample.alwaysSends
              Sample.noFile Sample.noCount Sample.noCount Sample.noFind
              Sample.noFind Sample.regexpError Sample.regexpReplace
              (op_addEmail "a@x.com") true Sample.connecting eq_refl)
    as [H _].
  rewrite H, Hcall. reflexivity.
Defined.

(** C1, as the claim states it, fails.  A Mongo-backed instance whose
    connection is still being established accepts [addEmail]: the call
    returns [true], inserts the address, emits [onEmailAdded] and no error,
    and asks the backend to store the entry. *)
Lemma addEmail_before_ready :
  initialized Sample.connecting = false
  /\ exists st',
       addEmail Sample.joi "a@x.com" Sample.connecting = (true, st')
       /\ waitlist st' = ["a@x.com"]
       /\ eventsOf (trace st') = [onEmailAdded "a@x.com"]
       /\ Backend (MongoCreate "a@x.com") ∈ trace st'
       /\ initialized st' = false.
Proof.
  split; [reflexivity|].
  eexists. split; [vm_compute; reflexivity|].
  repeat split; try (vm_compute; reflexivity).
  vm_compute. apply list_elem_of_In. simpl. tauto.
Qed.

(** ** The constructor *)

(** C2, as the code has it.  The constructor checks nothing in the mail
    configuration: whatever fields are missing, it returns an instance with
    an empty list, hands the fields as they are to the transporter and emits
    no event before returning.  A missing user shows later, when [sendMail]
    refuses to contact the transport and reports
    [Transporter not configured]. *)
Theorem constructor_never_throws
    (storage0 : Storage) (mailConfig : MailConfig)
    (opts : option WaitlistMailerOptions) :
  exists st,
    new_WaitlistMailer storage0 mailConfig opts = Returned st
    /\ waitlist st = []
    /\ eventsOf (trace st) = []
    /\ mailsOf (trace st) = []
    /\ t_host (options (transporter st)) = host mailConfig
    /\ t_port (options (transporter st)) = port mailConfig
    /\ auth_user (options (transporter st)) = user mailConfig
    /\ auth_pass (options (transporter st)) = pass mailConfig
    /\ (truthy (user mailConfig) = false ->
        forall smtp email subject htmlContent st1,
          transporter st1 = transporter st ->
          sendMail smtp email subject htmlContent st1
          = (false,
             record (Emit (onError email "sendMail" "Transporter not configured")) st1)).
Proof.
  destruct (new_WaitlistMailer storage0 mailConfig opts) as [st|error] eqn:Hnew;
    [|discriminate].
  exists st. destruct (new_fields _ _ _ _ Hnew) as (Ht & Hw & He & Hm).
  rewrite Ht. repeat split; try assumption.
  intros Huser smtp email subject htmlContent st1 Ht1.
  unfold sendMail. unfold_M. rewrite Ht1. simpl. by rewrite Huser.
Qed.

Lemma constructor_never_throws_witness :
  exists st,
    new_WaitlistMailer storage_local Sample.mailConfigNoUser None = Returned st
    /\ sendMail Sample.alwaysSends "a@x.com" "Hi" "Welcome" st
       = (false,
          record (Emit (onError "a@x.com" "sendMail" "Transporter not configured")) st).
Proof.
  destruct (constructor_never_throws storage_local Sample.mailConfigNoUser None)
    as (st & Hnew & _ & _ & _ & _ & _ & _ & _ & Hsend).
  exists st. split; [exact Hnew|].
  apply Hsend; reflexivity.
Defined.

(** C2, as the claim states it, fails.  A configuration without [pass]
    is accepted: the constructor returns a local instance that is
    initialized, with a transporter whose password is undefined. *)
Lemma constructor_accepts_missing_pass :
  exists st,
    new_WaitlistMailer storage_local Sample.mailConfigNoPass (Some Sample.acme)
    = Returned st
    /\ pass Sample.mailConfigNoPass = None
    /\ auth_pass (options (transporter st)) = None
    /\ initialized st = true
    /\ forall error,
         new_WaitlistMailer storage_local Sample.mailConfigNoPass (Some Sample.acme)
         <> Threw error.
Proof.
  eexists. split; [reflexivity|]. repeat split. intros error. discriminate.
Qed.

(** ** Counting what a run of sends adds to the trace *)

Lemma sentCount_app t1 t2 : sentCount (t1 ++ t2) = (sentCount t1 + sentCount t2)%nat.
Proof. unfold sentCount. by rewrite filter_app, length_app. Qed.

Lemma retriesOf_app t1 t2 : retriesOf (t1 ++ t2) = retriesOf t1 ++ retriesOf t2.
Proof. apply omap_app. Qed.

Lemma sleepsOf_app t1 t2 : sleepsOf (t1 ++ t2) = sleepsOf t1 ++ sleepsOf t2.
Proof. apply omap_app. Qed.

Lemma mailsOf_app t1 t2 : mailsOf (t1 ++ t2) = mailsOf t1 ++ mailsOf t2.
Proof. apply omap_app. Qed.

Lemma sendMail_account smtp email subject htmlContent st :
  exists tail,
    trace (snd (sendMail smtp email subject htmlContent st)) = trace st ++ tail
    /\ oneAttempt email (fst (sendMail smtp email subject htmlContent st)) tail.
Proof.
  unfold sendMail. unfold_M.
  destruct (truthy (auth_user (options (transporter st)))); simpl.
  - match goal with |- context [smtp ?n ?m] => destruct (smtp n m) end; simpl;
      rewrite <- app_assoc; eexists; (split; [reflexivity|]);
      repeat split; simpl; try lia; by repeat constructor.
  - eexists. split; [reflexivity|]. repeat split; simpl; try lia; constructor.
Qed.

Lemma sendConfirmation_account smtp email sT bT st :
  exists tail,
    trace (snd (sendConfirmation smtp email sT bT st)) = trace st ++ tail
    /\ oneAttempt email (fst (sendConfirmation smtp email sT bT st)) tail.
Proof.
  unfold sendConfirmation. unfold_M.
  destruct (JsSet.has email (waitlist st)); simpl.
  - apply sendMail_account.
  - exists []. rewrite app_nil_r. repeat split; simpl; try lia; constructor.
Qed.

Lemma retryLoop_account smtp email sT bT retries delayMs todo attempt st :
  exists tail,
    trace (snd (retryLoop smtp todo attempt retries delayMs email sT bT st))
    = trace st ++ tail
    /\ retryAccount email todo attempt retries delayMs
         (fst (retryLoop smtp todo attempt retries delayMs email sT bT st)) tail.
Proof.
  revert attempt st. induction todo as [|todo IH]; intros attempt st; simpl.
  - exists []. rewrite app_nil_r. split; [reflexivity|].
    exists O. repeat split; simpl; try lia; constructor.
  - unfold_M.
    destruct (sendConfirmation_account smtp email sT bT st)
      as (t1 & Ht1 & Hs1 & Hr1 & Hz1 & Hm1 & Ha1 & He1).
    destruct (sendConfirmation smtp email sT bT st) as [[|] st1]; simpl in *.
    + exists t1. split; [exact Ht1|].
      exists O. rewrite Hr1, Hz1. repeat split; try assumption; lia.
    + set (st2 := record (Emit (onEmailRetry email (attempt + 1))) st1).
      set (st3 := if attempt <? retries then record (Sleep delayMs) st2 else st2).
      assert (Hst3 : trace st3
                     = trace st ++ t1 ++ Emit (onEmailRetry email (attempt + 1))
                         :: (if attempt <? retries then [Sleep delayMs] else [])).
      { subst st3 st2. destruct (attempt <? retries); simpl; rewrite Ht1;
          by rewrite <- !app_assoc. }
      match goal with
      | |- context [trace (snd ?X)] =>
          assert (Heq : X = retryLoop smtp todo (attempt + 1) retries delayMs
                              email sT bT st3)
            by (subst st3; by destruct (attempt <? retries));
          rewrite Heq; clear Heq
      end.
      destruct (IH (attempt + 1) st3)
        as (t2 & Ht2 & failed & Hf & Hs2 & Hr2 & Hz2 & Hm2 & Ha2 & He2).
      destruct (retryLoop smtp todo (attempt + 1) retries delayMs email sT bT st3)
        as [r st4]; simpl in *.
      eexists. split; [rewrite Ht2, Hst3, <- !app_assoc; reflexivity|].
      exists (S failed).
      rewrite !sentCount_app, !retriesOf_app, !sleepsOf_app, !mailsOf_app,
        !length_app, !forallb_app, Hs1, Hr1, Hz1, He1.
      change (Emit (onEmailRetry email (attempt + 1))
                :: (if attempt <? retries then [Sleep delayMs] else []))
        with ([Emit (onEmailRetry email (attempt + 1))]
                ++ (if attempt <? retries then [Sleep delayMs] else [])).
      rewrite !sentCount_app, !retriesOf_app, !sleepsOf_app, !mailsOf_app,
        !length_app, !forallb_app, Hs2, Hr2, Hz2, He2.
      repeat split.
      * destruct r; lia.
      * destruct (attempt <? retries); simpl; lia.
      * destruct (attempt <? retries); simpl;
          (f_equal; [f_equal; lia|]);
          rewrite <- seq_shift, map_map; apply map_ext; intros i;
          f_equal; lia.
      * destruct (Z.ltb_spec attempt retries); simpl.
        -- replace (Z.to_nat (retries - attempt))
             with (S (Z.to_nat (retries - (attempt + 1)))) by lia.
           reflexivity.
        -- replace (Z.to_nat (retries - attempt)) with O by lia.
           replace (Z.to_nat (retries - (attempt + 1))) with O by lia.
           by rewrite !Nat.min_0_r.
      * destruct (attempt <? retries); simpl; destruct r; lia.
      * destruct (attempt <? retries); simpl; rewrite ?app_nil_l;
          apply Forall_app; split; assumption.
      * destruct (attempt <? retries); reflexivity.
Qed.

(** The whole of [sendConfirmationWithRetry]. *)
Lemma sendConfirmationWithRetry_account smtp email sT bT retries delayMs st :
  exists tail,
    trace (snd (sendConfirmationWithRetry smtp email sT bT retries delayMs st))
    = trace st ++ tail
    /\ retryAccount email (Z.to_nat (retries + 1)) 0 retries delayMs
         (fst (sendConfirmationWithRetry smtp email sT bT retries delayMs st)) tail.
Proof. apply retryLoop_account. Qed.

(** When every attempt fails there is one [onEmailRetry] event more than
    there are delays: the last one follows the final attempt. *)
Lemma sendConfirmationWithRetry_all_failed smtp email sT bT retries delayMs st :
  0 <= retries ->
  fst (sendConfirmationWithRetry smtp email sT bT retries delayMs st) = false ->
  exists tail,
    trace (snd (sendConfirmationWithRetry smtp email sT bT retries delayMs st))
    = trace st ++ tail
    /\ retriesOf tail
       = map (fun i => (email, 1 + Z.of_nat i)) (seq 0 (Z.to_nat retries + 1))
    /\ sleepsOf tail = replicate (Z.to_nat retries) delayMs.
Proof.
  intros Hpos Hfalse.
  destruct (sendConfirmationWithRetry_account smtp email sT bT retries delayMs st)
    as (tail & Ht & failed & Hf & _ & Hr & Hz & _).
  rewrite Hfalse in Hf. exists tail. split; [exact Ht|].
  rewrite Hr, Hz, Hf. split.
  - replace (Z.to_nat (retries + 1)) with (Z.to_nat retries + 1)%nat by lia.
    apply map_ext. intros i. f_equal.
  - f_equal. lia.
Qed.

(** X22. When an attempt succeeds, the attempts before it failed and each
    was followed by its event and its delay. *)
Lemma sendConfirmationWithRetry_succeeded smtp email sT bT retries delayMs st :
  fst (sendConfirmationWithRetry smtp email sT bT retries delayMs st) = true ->
  exists (failed : nat) tail,
    trace (snd (sendConfirmationWithRetry smtp email sT bT retries delayMs st))
    = trace st ++ tail
    /\ Z.of_nat failed <= retries
    /\ sentCount tail = 1%nat
    /\ retriesOf tail = map (fun i => (email, 1 + Z.of_nat i)) (seq 0 failed)
    /\ sleepsOf tail = replicate failed delayMs
    /\ (length (mailsOf tail) <= failed + 1)%nat.
Proof.
  intros Htrue.
  destruct (sendConfirmationWithRetry_account smtp email sT bT retries delayMs st)
    as (tail & Ht & failed & Hf & Hs & Hr & Hz & Hm & _).
  rewrite Htrue in *. exists failed, tail. split; [exact Ht|].
  rewrite Hr, Hz. repeat split; try assumption; try lia.
  f_equal. lia.
Qed.

(** The scenario of the test suite: one retry allowed, the transport fails
    once and then succeeds.  The call returns [true], two mails reach the
    transport and the one [onEmailRetry] event carries the number 1. *)
Example retry_fails_once_then_succeeds :
  let st := Sample.withMembers ["retry@test.com"] Sample.localAcme in
  exists st' tail,
    sendConfirmationWithRetry Sample.failsOnce "retry@test.com"
      Sample.subjectFn Sample.bodyFn 1 100 st = (true, st')
    /\ trace st' = trace st ++ tail
    /\ length (mailsOf tail) = 2%nat
    /\ retriesOf tail = [("retry@test.com", 1)]
    /\ sleepsOf tail = [100].
Proof.
  eexists. eexists. split; [vm_compute; reflexivity|].
  split; [vm_compute; reflexivity|].
  repeat split.
Qed.

(** C3, where the code departs from the claim.  One retry allowed, every
    attempt fails: the two attempts are made, the call returns [false], and
    [onEmailRetry] is emitted twice, the second time with the number 2 after
    the final attempt, when no attempt follows; the only delay lies between
    the two attempts. *)
Theorem retry_event_after_final_attempt :
  let st := Sample.withMembers ["retry@test.com"] Sample.localAcme in
  exists st' tail,
    sendConfirmationWithRetry Sample.neverSends "retry@test.com"
      Sample.subjectFn Sample.bodyFn 1 100 st = (false, st')
    /\ trace st' = trace st ++ tail
    /\ length (mailsOf tail) = 2%nat
    /\ retriesOf tail = [("retry@test.com", 1); ("retry@test.com", 2)]
    /\ sleepsOf tail = [100]
    /\ last tail = Some (Emit (onEmailRetry "retry@test.com" 2)).
Proof.
  eexists. eexists. split; [vm_compute; reflexivity|].
  split; [vm_compute; reflexivity|].
  repeat split.
Qed.

(** ** sendBulkConfirmation *)

Lemma successes_sentCount retries delayMs emails runs :
  Forall2 (bulkAccount retries delayMs) emails runs ->
  sentCount (concat (map snd runs)) = successes runs
  /\ forallb sendEffect (concat (map snd runs)) = true.
Proof.
  induction 1 as [|email [r t] emails runs (failed & _ & Hs & _ & _ & _ & _ & He) _ [IH1 IH2]];
    [split; reflexivity|].
  simpl in *. rewrite sentCount_app, forallb_app, IH1, IH2, Hs, He.
  split; [|reflexivity].
  unfold successes. rewrite filter_cons. simpl.
  destruct r; [rewrite decide_True by reflexivity|rewrite decide_False by discriminate];
    reflexivity.
Qed.

Lemma successes_le runs : (successes runs <= length runs)%nat.
Proof. unfold successes. apply length_filter. Qed.


Lemma countSuccessful_cons ok oks :
  countSuccessful (ok :: oks)
  = ((if (ok : bool) then 1 else 0) + countSuccessful oks)%nat.
Proof.
  unfold countSuccessful. rewrite filter_cons.
  destruct ok; [rewrite decide_True by reflexivity|rewrite decide_False by discriminate];
    reflexivity.
Qed.

Lemma countSuccessful_le oks : (countSuccessful oks <= length oks)%nat.
Proof. unfold countSuccessful. apply length_filter. Qed.

Lemma successes_countSuccessful runs : successes runs = countSuccessful (map fst runs).
Proof.
  induction runs as [|[r t] runs IH]; [reflexivity|].
  cbn [map fst]. rewrite countSuccessful_cons, <- IH.
  unfold successes. rewrite filter_cons. simpl.
  destruct r; [rewrite decide_True by reflexivity|rewrite decide_False by discriminate];
    reflexivity.
Qed.

(** The loop of the code, with its counter, is the sequence of calls the
    specification describes. *)
Lemma bulkLoop_each smtp sT bT retries delayMs emails successCount st :
  bulkLoop smtp emails successCount sT bT retries delayMs st
  = ((successCount
      + countSuccessful (fst (sendWithRetryEach smtp sT bT retries delayMs emails st)))%nat,
     snd (sendWithRetryEach smtp sT bT retries delayMs emails st)).
Proof.
  revert successCount st.
  induction emails as [|email rest IH]; intros successCount st.
  - simpl. unfold ret, countSuccessful. simpl. f_equal. lia.
  - cbn [bulkLoop sendWithRetryEach]. unfold bind.
    destruct (sendConfirmationWithRetry smtp email sT bT retries delayMs st)
      as [ok st1].
    rewrite IH.
    destruct (sendWithRetryEach smtp sT bT retries delayMs rest st1) as [oks st2].
    cbn [fst snd]. rewrite countSuccessful_cons. f_equal. destruct ok; lia.
Qed.

Lemma sendWithRetryEach_account smtp sT bT retries delayMs emails st :
  exists runs,
    Forall2 (bulkAccount retries delayMs) emails runs
    /\ map fst runs = fst (sendWithRetryEach smtp sT bT retries delayMs emails st)
    /\ trace (snd (sendWithRetryEach smtp sT bT retries delayMs emails st))
       = trace st ++ concat (map snd runs).
Proof.
  revert st. induction emails as [|email rest IH]; intros st.
  - exists []. simpl. rewrite app_nil_r. by repeat split.
  - cbn [sendWithRetryEach].
    destruct (sendConfirmationWithRetry_account smtp email sT bT retries delayMs st)
      as (t1 & Ht1 & Hacc).
    destruct (sendConfirmationWithRetry smtp email sT bT retries delayMs st)
      as [ok st1]; simpl in Ht1, Hacc.
    destruct (IH st1) as (runs & Hruns & Hfst & Ht).
    destruct (sendWithRetryEach smtp sT bT retries delayMs rest st1) as [oks st2].
    simpl in *. exists ((ok, t1) :: runs).
    split; [by constructor|]. split; [simpl; by rewrite Hfst|].
    simpl. by rewrite Ht, Ht1, <- app_assoc.
Qed.

(** C5. [sendBulkConfirmation] takes the members of the set as they are
    when it is called, into a new array, and calls
    [sendConfirmationWithRetry] for each of them, one after the other in the
    order of the set, each call on the state the one before left.  It
    returns the number of calls that returned [true], and then emits
    [onBulkConfirmationComplete] with that number and the size of the set;
    this is its last effect and the only event of that name.  The number is
    also the number of [onEmailSent] events of the run and is at most the
    size of the set; the trace of the run is that of the calls, one after the
    other, and the fields of the object are as before.  Over the two
    addresses of the test suite with a transport that always accepts, the
    result is 2 and the event carries 2 and 2. *)
Theorem sendBulkConfirmation_account
    (smtp : nat -> SendMailOptions -> Settled string)
    (subjectTemplate bodyTemplate : string -> string)
    (retries delayMs : Z) (st : State) :
  (exists (r : loc) (oks : list bool) (st1 : State)
          (runs : list (bool * list Effect)),
     let n := countSuccessful oks in
     heap st !! r = None
     /\ sendWithRetryEach smtp subjectTemplate bodyTemplate retries delayMs
          (waitlist st) (set_heap (<[r := waitlist st]> (heap st)) st)
        = (oks, st1)
     /\ sendBulkConfirmation smtp subjectTemplate bodyTemplate retries delayMs st
        = (n, record (Emit (onBulkConfirmationComplete n (length (waitlist st)))) st1)
     /\ length oks = length (waitlist st)
     /\ (n <= length (waitlist st))%nat
     /\ Forall2 (bulkAccount retries delayMs) (waitlist st) runs
     /\ map fst runs = oks
     /\ trace st1 = trace st ++ concat (map snd runs)
     /\ n = sentCount (concat (map snd runs))
     /\ existsb isBulkComplete (concat (map snd runs)) = false
     /\ sameFields st st1)
  /\ (let st2 := Sample.withMembers ["a@x.com"; "b@x.com"] Sample.localAcme in
      let '(n, st') :=
        sendBulkConfirmation Sample.alwaysSends Sample.subjectFn Sample.bodyFn
          3 1000 st2 in
      waitlist st2 = ["a@x.com"; "b@x.com"]
      /\ n = 2%nat
      /\ last (trace st') = Some (Emit (onBulkConfirmationComplete 2 2))
      /\ length (filter (fun x => isBulkComplete x = true) (trace st')) = 1%nat).
Proof.
  split.
  - destruct (newArray_spec (waitlist st) st) as (r & Hr & Hfresh).
    set (st0 := set_heap (<[r := waitlist st]> (heap st)) st) in *.
    destruct (sendWithRetryEach_account smtp subjectTemplate bodyTemplate
                retries delayMs (waitlist st) st0) as (runs & Hruns & Hfst & Ht).
    pose proof (bulkLoop_each smtp subjectTemplate bodyTemplate retries delayMs
                  (waitlist st) O st0) as Hloop.
    pose proof (bulkLoop_grows smtp (waitlist st) O subjectTemplate bodyTemplate
                  retries delayMs st0) as [Hsame _].
    rewrite Hloop in Hsame.
    destruct (sendWithRetryEach smtp subjectTemplate bodyTemplate retries delayMs
                (waitlist st) st0) as [oks st1] eqn:Heach.
    cbn [fst snd] in *.
    destruct (successes_sentCount _ _ _ _ Hruns) as [Hsent Heff].
    assert (Hlen : length oks = length (waitlist st)).
    { by rewrite <- Hfst, length_map, (Forall2_length _ _ _ Hruns). }
    exists r, oks, st1, runs. cbn zeta.
    split; [exact Hfresh|]. split; [exact Heach|].
    split.
    { unfold sendBulkConfirmation, getWaitlist. unfold_M. unfold JsSet.toArray.
      rewrite Hr. simpl. rewrite lookup_insert_eq. simpl. fold st0.
      by rewrite Hloop. }
    split; [exact Hlen|].
    split; [rewrite <- Hlen; apply countSuccessful_le|].
    split; [exact Hruns|]. split; [exact Hfst|]. split; [exact Ht|].
    split; [by rewrite Hsent, successes_countSuccessful, Hfst|].
    split; [|exact Hsame].
    apply not_true_is_false. intros Hex.
    apply existsb_exists in Hex as (x & Hin & Hx).
    rewrite forallb_forall in Heff. specialize (Heff x Hin).
    destruct x as [e| | | | | |]; try discriminate. by destruct e.
  - vm_compute. repeat split.
Qed.

(** ** Templates read from a file *)

Lemma includes_dollar_cons c r :
  JsString.includes (String c r) "$"
  = if Ascii.eqb "$" c then true else JsString.includes r "$".
Proof.
  change (JsString.includes (String c r) "$")
    with (match (if Ascii.eqb "$" c then Some r else None) with
          | Some _ => true
          | None => JsString.includes r "$"
          end).
  by destruct (Ascii.eqb "$" c).
Qed.

(** A replacement without a dollar sign is inserted as it is. *)
Lemma getSubstitution_plain matched before after repl :
  JsString.includes repl "$" = false ->
  JsString.getSubstitution matched before after repl = repl.
Proof.
  induction repl as [|c r IH]; [reflexivity|].
  rewrite includes_dollar_cons.
  destruct (Ascii.eqb_spec "$"%char c) as [<-|Hc]; [discriminate|].
  intros Hr. cbn [JsString.getSubstitution].
  rewrite (proj2 (Ascii.eqb_neq c "$"%char)) by congruence.
  f_equal. by apply IH.
Qed.

(** A subject in which the pattern matches nowhere is left as it is. *)
Lemma replaceFrom_no_match (m : JsString.Matcher) repl s :
  (forall n, m (JsString.drop n s) = None) ->
  forall before, JsString.replaceFrom m repl before O s = s.
Proof.
  induction s as [|c r IH]; intros Hm before; [reflexivity|].
  cbn [JsString.replaceFrom].
  pose proof (Hm O) as H0. cbn [JsString.drop] in H0. rewrite H0.
  f_equal. apply IH. intros n. apply (Hm (S n)).
Qed.

(** Explicit replacements override the two defaults, which keep their
    place in the order of substitution. *)
Example spread_overrides_default :
  spread [("email", "u@x.com"); ("companyName", "Acme")]
         [("customMessage", "Hi"); ("companyName", "Zed")]
  = [("email", "u@x.com"); ("companyName", "Zed"); ("customMessage", "Hi")].
Proof. reflexivity. Qed.

Example template_tokens_replaced :
  substituteAll
    [("email", "u@x.com"); ("companyName", "Zed"); ("customMessage", "Hi")]
    "<h1>{{ email }}</h1><p>{{companyName}}: {{  customMessage}} {{other}}</p>"
  = "<h1>u@x.com</h1><p>Zed: Hi {{other}}</p>".
Proof. vm_compute. reflexivity. Qed.

(** When the template cannot be read the send fails after the read
    and an [onError] event, and nothing is handed to the transport. *)
Lemma sendConfirmationFromFile_unreadable smtp fs regexpError regexpReplace
    email sT path repl st err :
  JsSet.has email (waitlist st) = true ->
  fs (occurrences isReadFile st) path = Rejected err ->
  sendConfirmationFromFile smtp fs regexpError regexpReplace email sT path repl st
  = (false,
     record (Emit (onError email "sendConfirmationFromFile" err))
       (record (ReadFile path) st)).
Proof.
  intros Hin Hfs. unfold sendConfirmationFromFile. rewrite Hin, Hfs. reflexivity.
Qed.

(** A replacement whose key is not an identifier goes through the
    regular-expression engine, after the two defaults have been
    substituted.  When the pattern built from the key does not compile, the
    send fails as it does for an unreadable file: after the read, with an
    [onError] event and nothing handed to the transport.  When it compiles,
    the mail carries what the replacement of the engine yields. *)
Lemma sendConfirmationFromFile_other_key smtp fs regexpError regexpReplace
    email sT path key value st content :
  JsSet.has email (waitlist st) = true ->
  fs (occurrences isReadFile st) path = Fulfilled content ->
  JsString.isIdentifier key = false ->
  arrayIndex key = None ->
  sendConfirmationFromFile smtp fs regexpError regexpReplace email sT path
    [(key, value)] st
  = match regexpError (tokenSource key) with
    | Some err =>
        (false,
         record (Emit (onError email "sendConfirmationFromFile" err))
           (record (ReadFile path) st))
    | None =>
        sendMail smtp email (sT email)
          (regexpReplace (tokenSource key) value
             (substituteAll [("email", email); ("companyName", companyName st)]
                content))
          (record (ReadFile path) st)
    end.
Proof.
  intros Hin Hfs Hkey Hidx. unfold sendConfirmationFromFile.
  rewrite Hin, Hfs. cbn [negb spread companyName record].
  assert (Hne : forall k, JsString.isIdentifier k = true -> String.eqb key k = false).
  { intros k Hk. apply String.eqb_neq. intros ->. congruence. }
  unfold objectSet, objectHas. cbn [existsb fst].
  rewrite !Hne by reflexivity. cbn [orb]. rewrite Hidx.
  cbn [app substituteEach]. unfold substituteKey.
  change (JsString.isIdentifier "email") with true.
  change (JsString.isIdentifier "companyName") with true.
  cbn iota. rewrite Hkey.
  by destruct (regexpError (tokenSource key)).
Qed.

(** C6, where the code departs from the claim.  The value of a key goes
    to [String.prototype.replace] as a replacement pattern, not as text: in
    the value [Win $$$ today] the first two dollar signs stand for one, so
    the mail says [Win $$ today]; with the value [$&] the token is replaced
    by itself.  The substitutions are also applied one key after the other
    to the result of the previous ones, so a token brought in by the value
    of an earlier key is replaced as well. *)
Theorem template_value_not_verbatim :
  let st := Sample.withMembers ["u@x.com"] Sample.localAcme in
  let sent (template : string) (replacements : list (string * string)) :=
    let '(r, st') :=
      sendConfirmationFromFile Sample.alwaysSends (Sample.fileWith template)
        Sample.regexpError Sample.regexpReplace
        "u@x.com" Sample.subjectFn "welcome.html" replacements st in
    (r, map html (mailsOf (trace st'))) in
  sent "<p>{{customMessage}}</p>" [("customMessage", "Win $$$ today")]
  = (true, ["<p>Win $$ today</p>"])
  /\ sent "<p>{{name}}</p>" [("name", "$&")]
     = (true, ["<p>{{name}}</p>"])
  /\ sent "<p>{{first}}</p>" [("first", "{{second}}"); ("second", "x")]
     = (true, ["<p>x</p>"]).
Proof. vm_compute. repeat split. Qed.

(** ** What [replace] does with a replacement that has no dollar sign *)

Lemma replaceFrom_before (m : JsString.Matcher) repl s :
  JsString.includes repl "$" = false ->
  forall b1 b2 k,
    JsString.replaceFrom m repl b1 k s = JsString.replaceFrom m repl b2 k s.
Proof.
  intros Hplain. induction s as [|c r IH]; intros b1 b2 k; [reflexivity|].
  cbn [JsString.replaceFrom]. destruct k as [|k]; [|apply IH].
  destruct (m (String c r)) as [[|len]|].
  - f_equal. apply IH.
  - rewrite !getSubstitution_plain by exact Hplain. f_equal. apply IH.
  - f_equal. apply IH.
Qed.

Lemma replaceFrom_skip (m : JsString.Matcher) repl s :
  JsString.includes repl "$" = false ->
  forall b b' k,
    JsString.replaceFrom m repl b k s
    = JsString.replaceFrom m repl b' O (JsString.drop k s).
Proof.
  intros Hplain. induction s as [|c r IH]; intros b b' k.
  - by destruct k.
  - destruct k as [|k].
    + cbn [JsString.drop]. by apply replaceFrom_before.
    + cbn [JsString.replaceFrom JsString.drop]. apply IH.
Qed.

(** With such a replacement, [replace] goes through the subject from left
    to right: where the pattern matches, the match is replaced by the
    replacement and the scan goes on after it; where it does not, the
    character is kept. *)
Lemma replace_plain_match (m : JsString.Matcher) repl c r len :
  JsString.includes repl "$" = false ->
  m (String c r) = Some (S len) ->
  JsString.replace m repl (String c r)
  = repl +:+ JsString.replace m repl (JsString.drop (S len) (String c r)).
Proof.
  intros Hplain Hm. unfold JsString.replace. cbn [JsString.replaceFrom].
  rewrite Hm, getSubstitution_plain by exact Hplain. f_equal.
  cbn [JsString.drop]. by apply replaceFrom_skip.
Qed.

Lemma replace_plain_no_match (m : JsString.Matcher) repl c r :
  JsString.includes repl "$" = false ->
  m (String c r) = None ->
  JsString.replace m repl (String c r) = String c (JsString.replace m repl r).
Proof.
  intros Hplain Hm. unfold JsString.replace. cbn [JsString.replaceFrom].
  rewrite Hm. f_equal. by apply replaceFrom_before.
Qed.

(** ** The token pattern *)

Lemma isIdentStart_not_space c :
  JsString.isIdentStart c = true -> JsString.isSpace c = false.
Proof. destruct c as [[] [] [] [] [] [] [] []]; vm_compute; congruence. Qed.

Lemma append_cons a s t : String a s +:+ t = String a (s +:+ t).
Proof. reflexivity. Qed.

Lemma stripPrefix_app p t : JsString.stripPrefix p (p +:+ t) = Some t.
Proof.
  induction p as [|a p IH]; [reflexivity|].
  rewrite append_cons. cbn [JsString.stripPrefix]. by rewrite Ascii.eqb_refl.
Qed.

Lemma skipSpaces_app ws t :
  JsString.allChars JsString.isSpace ws = true ->
  JsString.skipSpaces t = (O, t) ->
  JsString.skipSpaces (ws +:+ t) = (String.length ws, t).
Proof.
  intros Hws Ht. induction ws as [|c ws IH]; [exact Ht|].
  cbn [JsString.allChars] in Hws. apply andb_true_iff in Hws as [Hc Hws].
  rewrite append_cons. cbn [JsString.skipSpaces String.length].
  rewrite Hc, (IH Hws). reflexivity.
Qed.

Lemma skipSpaces_stop c t :
  JsString.isSpace c = false -> JsString.skipSpaces (String c t) = (O, String c t).
Proof. intros Hc. cbn [JsString.skipSpaces]. by rewrite Hc. Qed.

Lemma length_append s t :
  String.length (s +:+ t) = (String.length s + String.length t)%nat.
Proof.
  induction s as [|c s IH]; [reflexivity|].
  rewrite append_cons. cbn [String.length]. rewrite IH. reflexivity.
Qed.

Lemma drop_app s t : JsString.drop (String.length s) (s +:+ t) = t.
Proof. induction s as [|c s IH]; [by destruct t|]. exact IH. Qed.

Lemma append_assoc s t u : (s +:+ t) +:+ u = s +:+ (t +:+ u).
Proof.
  induction s as [|c s IH]; [reflexivity|].
  rewrite !append_cons. f_equal. exact IH.
Qed.

(** The pattern matches a whole token. *)
Lemma token_matches key ws1 ws2 rest :
  JsString.isIdentifier key = true ->
  JsString.allChars JsString.isSpace ws1 = true ->
  JsString.allChars JsString.isSpace ws2 = true ->
  JsString.token key (tokenText ws1 key ws2 +:+ rest)
  = Some (String.length (tokenText ws1 key ws2)).
Proof.
  intros Hkey Hws1 Hws2. unfold JsString.token, tokenText.
  rewrite !append_assoc. rewrite stripPrefix_app.
  destruct key as [|k key]; [discriminate|].
  cbn [JsString.isIdentifier] in Hkey. apply andb_true_iff in Hkey as [Hk _].
  rewrite (skipSpaces_app ws1);
    [|exact Hws1
     |rewrite append_cons; apply skipSpaces_stop; by apply isIdentStart_not_space].
  rewrite stripPrefix_app.
  rewrite (skipSpaces_app ws2);
    [|exact Hws2|apply skipSpaces_stop; reflexivity].
  rewrite stripPrefix_app. f_equal.
  rewrite !length_append. simpl. lia.
Qed.

(** A token at the head of the template is replaced by a value without
    dollar sign, white space in the braces or not, and the substitution goes
    on behind it. *)
Lemma replace_token_head key value ws1 ws2 rest :
  JsString.isIdentifier key = true ->
  JsString.includes value "$" = false ->
  JsString.allChars JsString.isSpace ws1 = true ->
  JsString.allChars JsString.isSpace ws2 = true ->
  JsString.replace (JsString.token key) value (tokenText ws1 key ws2 +:+ rest)
  = value +:+ JsString.replace (JsString.token key) value rest.
Proof.
  intros Hkey Hval Hws1 Hws2.
  pose proof (token_matches key ws1 ws2 rest Hkey Hws1 Hws2) as Hm.
  pose proof (drop_app (tokenText ws1 key ws2) rest) as Hd.
  destruct (tokenText ws1 key ws2 +:+ rest) as [|c r] eqn:E.
  { unfold tokenText in E. discriminate. }
  destruct (String.length (tokenText ws1 key ws2)) as [|len] eqn:El.
  { unfold tokenText in El. discriminate. }
  rewrite (replace_plain_match _ _ _ _ len Hval Hm). by rewrite Hd.
Qed.

(** * More of the class *)

(** ** addEmail and removeEmail *)

Lemma eventsOf_app t1 t2 : eventsOf (t1 ++ t2) = eventsOf t1 ++ eventsOf t2.
Proof. apply omap_app. Qed.

Lemma persist_persisted mongoCall sqlCall st :
  persist mongoCall sqlCall st
  = (tt, foldl (fun s x => record x s) st (persisted mongoCall sqlCall st)).
Proof.
  unfold persist, persisted. unfold_M.
  destruct (usesMongo st); [reflexivity|]. by destruct (usesSql st).
Qed.

Lemma records_waitlist l (s : State) :
  waitlist (foldl (fun s x => record x s) s l) = waitlist s.
Proof. revert s. induction l as [|x l IH]; intros s; simpl; [reflexivity|]. by rewrite IH. Qed.

Lemma records_trace l (s : State) :
  trace (foldl (fun s x => record x s) s l) = trace s ++ l.
Proof.
  revert s. induction l as [|x l IH]; intros s; simpl; [by rewrite app_nil_r|].
  rewrite IH. simpl. by rewrite <- app_assoc.
Qed.

Lemma eventsOf_persisted mongoCall sqlCall st :
  eventsOf (persisted mongoCall sqlCall st) = [].
Proof. unfold persisted. by repeat case_match. Qed.

(** X1. [addEmail] returns [true] exactly when the validator accepts the
    address and the set does not hold it yet.  The validation comes first: an
    address that is both invalid and present is reported as invalid.  The
    set grows by the address at its end exactly when the call returns
    [true]; one event tells which of the three cases occurred, and the
    backend is asked to store the entry only in the successful case. *)
Theorem addEmail_outcome (joi : string -> option string) (email : string) (st : State) :
  exists st',
    addEmail joi email st
    = (bool_decide (joi email = None) && negb (JsSet.has email (waitlist st)), st')
    /\ waitlist st'
       = (if bool_decide (joi email = None) && negb (JsSet.has email (waitlist st))
          then waitlist st ++ [email] else waitlist st)
    /\ trace st'
       = trace st
         ++ match joi email with
            | Some msg => [Emit (onValidationError email (Some msg))]
            | None =>
                if JsSet.has email (waitlist st)
                then [Emit (onDuplicateEmail email)]
                else Emit (onEmailAdded email)
                       :: persisted (MongoCreate email) (SqlCreate email) st
            end
    /\ heap st' = heap st.
Proof.
  unfold addEmail, validateEmailFormat.
  destruct (joi email) as [msg|] eqn:Hj; simpl.
  - unfold_M. eexists. split; [reflexivity|]. by repeat split.
  - unfold_M. destruct (JsSet.has email (waitlist st)) eqn:Hhas; simpl.
    + eexists. split; [reflexivity|]. by repeat split.
    + rewrite persist_persisted. eexists. split; [reflexivity|].
      unfold persisted, usesMongo, usesSql. simpl.
      unfold JsSet.add. rewrite Hhas.
      destruct (bool_decide (storage st = storage_db) && truthy (mongoUri st));
        [simpl; by rewrite <- app_assoc|].
      destruct (bool_decide (storage st = storage_sql)
                && bool_decide (is_Some (sqlConnection st)));
        simpl; [by rewrite <- app_assoc|by repeat split].
Qed.

(** [removeEmail] of an address the set does not hold returns [false]
    and changes nothing: no event, no backend call. *)
Theorem removeEmail_absent (email : string) (st : State) :
  JsSet.has email (waitlist st) = false ->
  removeEmail email st = (false, st).
Proof. intros H. unfold removeEmail. unfold_M. by rewrite H. Qed.

Lemma removeEmail_absent_witness :
  removeEmail "ghost@x.com" Sample.localAcme = (false, Sample.localAcme).
Proof.
  apply (removeEmail_absent "ghost@x.com" Sample.localAcme).
  vm_compute. reflexivity.
Defined.

Lemma filter_ne_absent (x : string) (w : list string) :
  x ∉ w -> filter (fun y => y <> x) w = w.
Proof.
  induction w as [|y w IH]; intros Hx; [reflexivity|].
  rewrite not_elem_of_cons in Hx. destruct Hx as [Hne Hx].
  rewrite filter_cons, decide_True by congruence. f_equal. by apply IH.
Qed.

Lemma length_delete_NoDup (x : string) (w : list string) :
  NoDup w -> x ∈ w -> S (length (JsSet.delete x w)) = length w.
Proof.
  unfold JsSet.delete. induction 1 as [|y w Hy Hw IH]; intros Hx.
  - by apply elem_of_nil in Hx.
  - rewrite filter_cons. destruct (decide (y <> x)) as [Hne|Heq].
    + apply elem_of_cons in Hx as [->|Hx]; [congruence|].
      simpl. f_equal. by apply IH.
    + assert (y = x) as -> by (destruct (decide (y = x)); [done|contradiction]).
      rewrite filter_ne_absent by exact Hy. reflexivity.
Qed.

(** X2. [removeEmail] of a member returns [true] and takes exactly that
    address away: it is no member afterwards, every other address is a
    member exactly when it was one, in the same order, and when the list
    has no duplicates it is one shorter.  One [onEmailRemoved] event is
    emitted, followed by the backend command of the storage. *)
Theorem removeEmail_present (email : string) (st : State) :
  JsSet.has email (waitlist st) = true ->
  NoDup (waitlist st) ->
  exists st',
    removeEmail email st = (true, st')
    /\ JsSet.has email (waitlist st') = false
    /\ (forall other, other <> email ->
          JsSet.has other (waitlist st') = JsSet.has other (waitlist st))
    /\ waitlist st' = filter (fun y => y <> email) (waitlist st)
    /\ S (length (waitlist st')) = length (waitlist st)
    /\ trace st'
       = trace st ++ Emit (onEmailRemoved email)
                  :: persisted (MongoDeleteOne email) (SqlDestroy email) st.
Proof.
  intros Hin Hnd. unfold removeEmail. unfold_M. rewrite Hin. simpl.
  rewrite persist_persisted. eexists. split; [reflexivity|].
  rewrite records_waitlist, records_trace. simpl. repeat split.
  - apply delete_shrinks.
  - intros other Hne. unfold JsSet.has.
    apply bool_decide_ext. rewrite elem_of_delete. tauto.
  - apply length_delete_NoDup; [exact Hnd|by apply has_true].
  - by rewrite <- app_assoc.
Qed.

Lemma removeEmail_present_witness :
  exists st',
    removeEmail "a@x.com" (Sample.withMembers ["a@x.com"; "b@x.com"] Sample.localAcme)
    = (true, st')
    /\ waitlist st' = ["b@x.com"].
Proof.
  destruct (removeEmail_present "a@x.com"
              (Sample.withMembers ["a@x.com"; "b@x.com"] Sample.localAcme))
    as (st' & Hr & _ & _ & Hw & _).
  - vm_compute. reflexivity.
  - apply (bool_decide_unpack _). vm_compute. exact I.
  - exists st'. split; [exact Hr|]. rewrite Hw. vm_compute. reflexivity.
Defined.

(** X3. Adding an address the set does not hold and removing it again
    returns [true] twice and gives the set back as it was, order included;
    the events of the two calls are [onEmailAdded] and [onEmailRemoved]. *)
Theorem addEmail_removeEmail_round_trip
    (joi : string -> option string) (email : string) (st : State) :
  joi email = None ->
  JsSet.has email (waitlist st) = false ->
  exists st1 st2,
    addEmail joi email st = (true, st1)
    /\ removeEmail email st1 = (true, st2)
    /\ waitlist st2 = waitlist st
    /\ eventsOf (trace st2)
       = eventsOf (trace st) ++ [onEmailAdded email; onEmailRemoved email].
Proof.
  intros Hj Hnew.
  unfold addEmail, removeEmail, validateEmailFormat. rewrite Hj. simpl.
  unfold_M. rewrite Hnew. simpl. rewrite persist_persisted.
  eexists. eexists. split; [reflexivity|].
  rewrite records_waitlist. simpl. rewrite has_add_same. simpl.
  rewrite persist_persisted. split; [reflexivity|].
  rewrite !records_waitlist, !records_trace. simpl.
  rewrite !records_trace. simpl. split.
  - unfold JsSet.add, JsSet.delete. rewrite Hnew.
    rewrite filter_app, filter_ne_absent by (by apply has_false).
    rewrite filter_cons, decide_False by (intros H; by apply H).
    by rewrite filter_nil, app_nil_r.
  - rewrite !eventsOf_app. simpl. rewrite !eventsOf_persisted.
    by rewrite !app_nil_r, <- app_assoc.
Qed.

Lemma addEmail_removeEmail_round_trip_witness :
  exists st1 st2,
    addEmail Sample.joi "a@x.com" Sample.localAcme = (true, st1)
    /\ removeEmail "a@x.com" st1 = (true, st2)
    /\ waitlist st2 = waitlist Sample.localAcme
    /\ eventsOf (trace st2)
       = eventsOf (trace Sample.localAcme)
         ++ [onEmailAdded "a@x.com"; onEmailRemoved "a@x.com"].
Proof.
  apply (addEmail_removeEmail_round_trip Sample.joi "a@x.com" Sample.localAcme).
  - vm_compute. reflexivity.
  - vm_compute. reflexivity.
Defined.

(** ** findEmailsByPattern and countWaitlistByDate *)

(** On a connected Mongo instance the pattern is compiled before the
    backend is asked: a pattern that does not compile yields an empty array
    and an [onError] event, and no backend call; one that compiles is sent
    to the backend. *)
Lemma findEmailsByPattern_mongo mongoFind sqlFind regexpError pattern st :
  usesMongo st = true ->
  exists r st',
    findEmailsByPattern mongoFind sqlFind regexpError pattern st = (r, st')
    /\ heap st !! r = None
    /\ match regexpError pattern with
       | Some err =>
           heap st' !! r = Some []
           /\ trace st'
              = trace st ++ [Emit (onError "waitlist" "findEmailsByPattern" err)]
       | None =>
           match mongoFind (occurrences isBackend st) pattern with
           | Fulfilled docs =>
               heap st' !! r = Some docs
               /\ trace st' = trace st ++ [Backend (MongoFindRegex pattern)]
           | Rejected err =>
               heap st' !! r = Some []
               /\ trace st'
                  = trace st ++ [Backend (MongoFindRegex pattern);
                                 Emit (onError "waitlist" "findEmailsByPattern" err)]
           end
       end.
Proof.
  intros Hm. unfold findEmailsByPattern. rewrite Hm.
  assert (Hnl : bool_decide (storage st = storage_local) = false).
  { apply bool_decide_eq_false. intros Hl. unfold usesMongo in Hm.
    rewrite Hl in Hm. discriminate. }
  rewrite Hnl. unfold newArray. unfold_M.
  assert (Hfresh : heap st !! fresh (dom (heap st)) = None)
    by (apply not_elem_of_dom, is_fresh).
  destruct (regexpError pattern) as [err|];
    [|destruct (mongoFind _ pattern)];
    eexists; eexists; (split; [reflexivity|]); simpl;
    (split; [exact Hfresh|]); rewrite lookup_insert_eq, <- ?app_assoc;
    by split.
Qed.

Lemma stripPrefix_Some p s r :
  JsString.stripPrefix p s = Some r <-> s = p +:+ r.
Proof.
  revert s. induction p as [|a p IH]; intros s.
  - split; [intros [= ->]; reflexivity|intros ->; reflexivity].
  - rewrite append_cons. destruct s as [|b s]; [split; discriminate|].
    cbn [JsString.stripPrefix].
    destruct (Ascii.eqb_spec a b) as [->|Hne].
    + rewrite IH. split; [intros ->; reflexivity|intros [= ->]; reflexivity].
    + split; [discriminate|intros [= Hb _]; by destruct Hne].
Qed.

Lemma includes_unfold s sub :
  JsString.includes s sub
  = match JsString.stripPrefix sub s with
    | Some _ => true
    | None => match s with
              | EmptyString => false
              | String _ r => JsString.includes r sub
              end
    end.
Proof. by destruct s. Qed.

(** [includes] is containment: the second string occurs somewhere in the
    first. *)
Lemma includes_spec s sub :
  JsString.includes s sub = true <-> exists pre post, s = pre +:+ sub +:+ post.
Proof.
  split.
  - induction s as [|c s IH]; cbn [JsString.includes].
    + destruct (JsString.stripPrefix sub EmptyString) as [r|] eqn:E; [|discriminate].
      intros _. apply stripPrefix_Some in E. by exists EmptyString, r.
    + destruct (JsString.stripPrefix sub (String c s)) as [r|] eqn:E.
      * intros _. apply stripPrefix_Some in E. by exists EmptyString, r.
      * intros H. destruct (IH H) as (pre & post & ->).
        by exists (String c pre), post.
  - intros (pre & post & ->). induction pre as [|c pre IH].
    + change (EmptyString +:+ sub +:+ post) with (sub +:+ post).
      rewrite includes_unfold. by rewrite stripPrefix_app.
    + rewrite append_cons. cbn [JsString.includes].
      destruct (JsString.stripPrefix sub (String c (pre +:+ sub +:+ post)));
        [reflexivity|exact IH].
Qed.

Lemma lowerUnit_idempotent c : JsString.lowerUnit (JsString.lowerUnit c) = JsString.lowerUnit c.
Proof. destruct c as [[] [] [] [] [] [] [] []]; vm_compute; reflexivity. Qed.

Lemma toLowerCase_idempotent s :
  JsString.toLowerCase (JsString.toLowerCase s) = JsString.toLowerCase s.
Proof.
  induction s as [|c s IH]; [reflexivity|].
  cbn [JsString.toLowerCase]. by rewrite lowerUnit_idempotent, IH.
Qed.

(** X4. With the local storage [findEmailsByPattern] returns a new array
    that holds, in the order of the set, exactly the members whose
    lower-cased text contains the lower-cased pattern; the pattern is plain
    text, its case does not matter, and the call changes no field and
    performs no effect. *)
Theorem findEmailsByPattern_local
    (mongoFind sqlFind : nat -> string -> Settled (list string))
    (regexpError : string -> option string)
    (pattern : string) (st : State) :
  storage st = storage_local ->
  exists r found st',
    findEmailsByPattern mongoFind sqlFind regexpError pattern st = (r, st')
    /\ heap st' !! r = Some found
    /\ heap st !! r = None
    /\ (forall email,
          email ∈ found
          <-> email ∈ waitlist st
              /\ exists pre post,
                   JsString.toLowerCase email
                   = pre +:+ JsString.toLowerCase pattern +:+ post)
    /\ found `sublist_of` waitlist st
    /\ findEmailsByPattern mongoFind sqlFind regexpError (JsString.toLowerCase pattern) st
       = (r, st')
    /\ sameFields st st'
    /\ trace st' = trace st.
Proof.
  intros Hlocal. unfold findEmailsByPattern.
  rewrite bool_decide_eq_true_2 by exact Hlocal.
  unfold_M. unfold JsSet.toArray.
  destruct (newArray_spec (waitlist st) st) as (r0 & H0 & Hfresh0).
  rewrite H0. cbn beta iota.
  set (st0 := set_heap (<[r0 := waitlist st]> (heap st)) st).
  set (found := filter
                  (fun email =>
                     JsString.includes (JsString.toLowerCase email)
                       (JsString.toLowerCase pattern) = true) (waitlist st)).
  destruct (newArray_spec found st0) as (r & Hr & Hfresh).
  exists r, found, (set_heap (<[r := found]> (heap st0)) st0).
  split; [exact Hr|].
  split; [simpl; apply lookup_insert_eq|].
  assert (Hne : r <> r0).
  { intros ->. subst st0. simpl in Hfresh. by rewrite lookup_insert_eq in Hfresh. }
  split.
  { subst st0. simpl in Hfresh. by rewrite lookup_insert_ne in Hfresh. }
  split.
  { intros email. subst found. rewrite list_elem_of_filter, includes_spec. tauto. }
  split; [apply sublist_filter|].
  split.
  { rewrite toLowerCase_idempotent. fold found. exact Hr. }
  split; by repeat split.
Qed.

Lemma findEmailsByPattern_local_witness :
  exists r found st',
    findEmailsByPattern Sample.noFind Sample.noFind Sample.regexpError "TEST"
      (Sample.withMembers ["test@x.com"; "other@x.com"] Sample.localAcme) = (r, st')
    /\ heap st' !! r = Some found
    /\ found `sublist_of` ["test@x.com"; "other@x.com"].
Proof.
  destruct (findEmailsByPattern_local Sample.noFind Sample.noFind
              Sample.regexpError "TEST"
              (Sample.withMembers ["test@x.com"; "other@x.com"] Sample.localAcme))
    as (r & found & st' & Hf & Hh & _ & _ & Hs & _).
  - vm_compute. reflexivity.
  - exists r, found, st'. split; [exact Hf|]. split; [exact Hh|]. exact Hs.
Defined.

(** X5. An instance whose storage is not ['local'] but which has no
    connection to use (['db'] without a Mongo URI, ['sql'] without an SQL
    configuration) answers from nowhere: [countWaitlistByDate] returns 0
    and [findEmailsByPattern] an empty array whatever the set holds, without
    any backend call or event, while [addEmail] and [removeEmail] still
    change the set in memory and persist nothing. *)
Theorem queries_without_connection
    (mongoCount : nat -> MongoQuery -> Settled nat)
    (sqlCount : nat -> SqlWhere -> Settled nat)
    (mongoFind sqlFind : nat -> string -> Settled (list string))
    (regexpError : string -> option string)
    (startDate endDate : option Z) (pattern : string) (st : State) :
  storage st <> storage_local ->
  memoryOnly st = true ->
  countWaitlistByDate mongoCount sqlCount startDate endDate st = (O, st)
  /\ (exists r st',
        findEmailsByPattern mongoFind sqlFind regexpError pattern st = (r, st')
        /\ heap st' !! r = Some []
        /\ sameFields st st'
        /\ trace st' = trace st)
  /\ (forall mongoCall sqlCall, persist mongoCall sqlCall st = (tt, st)).
Proof.
  intros Hnl Hmem. unfold memoryOnly in Hmem.
  apply andb_true_iff in Hmem as [Hm Hs].
  apply negb_true_iff in Hm, Hs.
  split; [|split].
  - unfold countWaitlistByDate.
    rewrite bool_decide_eq_false_2 by exact Hnl. by rewrite Hm, Hs.
  - unfold findEmailsByPattern.
    rewrite bool_decide_eq_false_2 by exact Hnl. rewrite Hm, Hs.
    destruct (newArray_spec [] st) as (r & Hr & _).
    exists r, (set_heap (<[r := []]> (heap st)) st).
    split; [exact Hr|]. split; [simpl; apply lookup_insert_eq|].
    split; by repeat split.
  - intros mongoCall sqlCall. unfold persist. by rewrite Hm, Hs.
Qed.

Lemma queries_without_connection_witness :
  countWaitlistByDate Sample.noCount Sample.noCount None None
    (Sample.withMembers ["a@x.com"] (Sample.started storage_db Sample.mailConfig (Some Sample.acme)))
  = (O, Sample.withMembers ["a@x.com"]
          (Sample.started storage_db Sample.mailConfig (Some Sample.acme))).
Proof.
  apply (queries_without_connection Sample.noCount Sample.noCount Sample.noFind
           Sample.noFind Sample.regexpError None None "a"
           (Sample.withMembers ["a@x.com"]
              (Sample.started storage_db Sample.mailConfig (Some Sample.acme)))).
  - vm_compute. discriminate.
  - vm_compute. reflexivity.
Defined.

(** ** The constructor and the callbacks it registers *)

(** X6. The instance the constructor returns is initialized exactly when
    it has no backend to connect to; in either case the constructor has asked
    the transporter to verify itself and has started exactly one further
    piece of work: the Mongo connection, the SQL authentication, or the timer
    that announces the initialization.  The company name defaults to
    [Your Company Name] when the options give none or an empty one. *)
Theorem constructor_readiness
    (storage0 : Storage) (mailConfig : MailConfig)
    (opts : option WaitlistMailerOptions) :
  exists st,
    new_WaitlistMailer storage0 mailConfig opts = Returned st
    /\ storage st = storage0
    /\ initialized st = memoryOnly st
    /\ trace st
       = [TransportVerify;
          if usesMongo st then Backend (MongoConnect (default EmptyString (mongoUri st)))
          else if usesSql st then Backend SqlAuthenticate
          else SetTimeout 0]
    /\ usesMongo st
       = bool_decide (storage0 = storage_db) && truthy (opts ≫= opt_mongoUri)
    /\ usesSql st
       = bool_decide (storage0 = storage_sql)
         && bool_decide (is_Some (opts ≫= opt_sqlConfig))
    /\ companyName st
       = (if truthy (opts ≫= opt_companyName)
          then default EmptyString (opts ≫= opt_companyName)
          else "Your Company Name")
    /\ heap st = ∅.
Proof.
  unfold new_WaitlistMailer, memoryOnly, usesMongo, usesSql. simpl.
  eexists. split; [reflexivity|].
  destruct (bool_decide (storage0 = storage_db) && truthy (opts ≫= opt_mongoUri)) eqn:Hm;
    simpl; rewrite ?Hm; [by repeat split|].
  destruct (bool_decide (storage0 = storage_sql)
            && bool_decide (is_Some (opts ≫= opt_sqlConfig))) eqn:Hs;
    simpl; rewrite ?Hm, ?Hs; by repeat split.
Qed.

Lemma hydrate_elem docs (w : list string) x :
  x ∈ foldl (fun w e => JsSet.add e w) w docs <-> x ∈ w \/ x ∈ docs.
Proof.
  revert w. induction docs as [|d docs IH]; intros w; simpl.
  - rewrite elem_of_nil. tauto.
  - rewrite IH, elem_of_add, elem_of_cons. tauto.
Qed.

Lemma hydrate_prefix docs (w : list string) :
  w `prefix_of` foldl (fun w e => JsSet.add e w) w docs.
Proof.
  revert w. induction docs as [|d docs IH]; intros w; simpl; [done|].
  etrans; [|apply IH]. unfold JsSet.add.
  destruct (JsSet.has d w); [done|]. by apply prefix_app_r.
Qed.

(** X7. When the load from the backend succeeds, every address the backend
    returned becomes a member, without being validated; the members already
    there keep their place, no address is held twice, the instance is
    marked initialized and [onInitialized] is emitted.  The Mongo and the
    SQL load do the same. *)
Theorem hydration_loads_everything (docs : list string) (st : State) :
  NoDup (waitlist st) ->
  exists st',
    resume (mongoFindSettled (Fulfilled docs)) st = (tt, st')
    /\ resume (sqlFindAllSettled (Fulfilled docs)) st = (tt, st')
    /\ initialized st' = true
    /\ (forall email, email ∈ waitlist st' <-> email ∈ waitlist st \/ email ∈ docs)
    /\ waitlist st `prefix_of` waitlist st'
    /\ NoDup (waitlist st')
    /\ trace st' = trace st ++ [Emit onInitialized]
    /\ heap st' = heap st.
Proof.
  intros Hnd. simpl. unfold hydrate. unfold_M. eexists.
  split; [reflexivity|]. split; [reflexivity|]. simpl.
  split; [reflexivity|]. split; [intros email; apply hydrate_elem|].
  split; [apply hydrate_prefix|]. split; [by apply hydrate_NoDup|].
  by split.
Qed.

Lemma hydration_loads_everything_witness :
  exists st',
    resume (mongoFindSettled (Fulfilled ["a@x.com"; "not an address"; "a@x.com"]))
      Sample.connecting = (tt, st')
    /\ initialized st' = true
    /\ NoDup (waitlist st').
Proof.
  destruct (hydration_loads_everything ["a@x.com"; "not an address"; "a@x.com"]
              Sample.connecting) as (st' & Hr & _ & Hi & _ & _ & Hnd & _).
  - vm_compute. constructor.
  - exists st'. split; [exact Hr|]. split; [exact Hi|exact Hnd].
Defined.

(** X8. Of all the callbacks only a successful load sets the
    initialization flag, and none clears it; only a successful load touches
    the list.  A failed connection, authentication, synchronization or load
    therefore leaves the flag as it was, and reports the failure with
    [onDbError] or [onSqlError]. *)
Theorem callbacks_and_the_flag (cb : Callback) (st : State) :
  exists st',
    resume cb st = (tt, st')
    /\ initialized st' = initialized st || loads cb
    /\ (loads cb = false -> waitlist st' = waitlist st)
    /\ storage st' = storage st
    /\ (forall err,
          cb = mongoConnectSettled (Rejected err) \/ cb = mongoFindSettled (Rejected err) ->
          last (trace st') = Some (Emit (onDbError err)))
    /\ (forall err,
          cb = sqlAuthenticateSettled (Rejected err) \/ cb = sqlSyncSettled (Rejected err)
          \/ cb = sqlFindAllSettled (Rejected err) ->
          last (trace st') = Some (Emit (onSqlError err))).
Proof.
  destruct cb as [[e|]| |[]|[]|[]|[]|[]|]; simpl; unfold hydrate; unfold_M;
    eexists; (split; [reflexivity|]); simpl;
    (split; [by rewrite ?orb_false_r, ?orb_true_r|]);
    (split; [by intros|]); (split; [reflexivity|]);
    split; intros err Hcb; repeat destruct Hcb as [Hcb|Hcb];
    try discriminate; injection Hcb as <-;
    by rewrite ?last_snoc, ?last_app.
Qed.

Lemma callbacks_and_the_flag_witness :
  exists st',
    resume (mongoConnectSettled (Rejected "ECONNREFUSED")) Sample.connecting = (tt, st')
    /\ initialized st' = false
    /\ waitlist st' = []
    /\ last (trace st') = Some (Emit (onDbError "ECONNREFUSED")).
Proof.
  destruct (callbacks_and_the_flag (mongoConnectSettled (Rejected "ECONNREFUSED"))
              Sample.connecting) as (st' & Hr & Hi & Hw & _ & He & _).
  exists st'. split; [exact Hr|]. split; [exact Hi|].
  split; [apply Hw; reflexivity|]. apply He. left. reflexivity.
Defined.

Lemma sameFields_sameConfig st st' : sameFields st st' -> sameConfig st st'.
Proof. intros (?&?&?&?&?&?&?). by repeat split. Qed.

Lemma records_config l (s : State) :
  sameConfig s (foldl (fun s x => record x s) s l).
Proof.
  revert s. induction l as [|x l IH]; intros s; simpl; [by repeat split|].
  destruct (IH (record x s)) as (?&?&?&?&?&?). by repeat split.
Qed.

Lemma run_sameConfig joi smtp fs mongoCount sqlCount mongoFind sqlFind
    regexpError regexpReplace op st v st' :
  run joi smtp fs mongoCount sqlCount mongoFind sqlFind
    regexpError regexpReplace op st = (v, st') ->
  sameConfig st st'.
Proof.
  destruct op; simpl; unfold lift.
  - unfold addEmail, validateEmailFormat. destruct (joi email); simpl; unfold_M.
    + intros [= <- <-]. by repeat split.
    + destruct (JsSet.has email (waitlist st)); simpl;
        [intros [= <- <-]; by repeat split|].
      rewrite persist_persisted. intros [= <- <-].
      match goal with |- sameConfig _ (foldl _ ?s ?l) =>
        destruct (records_config l s) as (?&?&?&?&?&?) end.
      by repeat split.
  - unfold removeEmail. unfold_M.
    destruct (JsSet.has email (waitlist st)); simpl;
      [|intros [= <- <-]; by repeat split].
    rewrite persist_persisted. intros [= <- <-].
    match goal with |- sameConfig _ (foldl _ ?s ?l) =>
      destruct (records_config l s) as (?&?&?&?&?&?) end.
    by repeat split.
  - unfold getWaitlist, newArray. unfold_M. intros [= <- <-]. by repeat split.
  - unfold clearWaitlist. unfold_M. rewrite persist_persisted. intros [= <- <-].
    match goal with |- sameConfig _ (foldl _ ?s ?l) =>
      destruct (records_config l s) as (?&?&?&?&?&?) end.
    by repeat split.
  - unfold isInitialized. unfold_M. intros [= <- <-]. by repeat split.
  - pose proof (findEmailsByPattern_sameFields mongoFind sqlFind regexpError pattern st) as Hs.
    destruct (findEmailsByPattern mongoFind sqlFind regexpError pattern st).
    intros [= <- <-]. by apply sameFields_sameConfig.
  - pose proof (countWaitlistByDate_sameFields mongoCount sqlCount startDate
                  endDate st) as Hs.
    destruct (countWaitlistByDate mongoCount sqlCount startDate endDate st).
    intros [= <- <-]. by apply sameFields_sameConfig.
  - pose proof (sendConfirmation_grows smtp email subjectTemplate bodyTemplate st)
      as [Hs _].
    destruct (sendConfirmation smtp email subjectTemplate bodyTemplate st).
    intros [= <- <-]. by apply sameFields_sameConfig.
  - pose proof (sendConfirmationFromFile_grows smtp fs regexpError regexpReplace
                  email subjectTemplate templateFilePath replacements st)
      as [Hs _].
    destruct (sendConfirmationFromFile smtp fs regexpError regexpReplace email
                subjectTemplate templateFilePath replacements st).
    intros [= <- <-]. by apply sameFields_sameConfig.
  - unfold sendConfirmationWithRetry.
    pose proof (retryLoop_grows smtp (Z.to_nat (retries + 1)) 0 retries delayMs
                  email subjectTemplate bodyTemplate st) as [Hs _].
    destruct (retryLoop smtp _ 0 retries delayMs email subjectTemplate bodyTemplate st).
    intros [= <- <-]. by apply sameFields_sameConfig.
  - unfold sendBulkConfirmation, getWaitlist, newArray. unfold_M.
    match goal with |- context [bulkLoop smtp ?l ?n ?a ?b ?c ?d ?s] =>
      pose proof (bulkLoop_grows smtp l n a b c d s) as [Hs _];
      destruct (bulkLoop smtp l n a b c d s) as [k st1] end.
    intros [= <- <-]. apply sameFields_sameConfig in Hs.
    destruct Hs as (?&?&?&?&?&?). by repeat split.
Qed.

(** X9. None of the eleven public methods [addEmail], [removeEmail],
    [getWaitlist], [clearWaitlist], [isInitialized], [findEmailsByPattern],
    [countWaitlistByDate], [sendConfirmation], [sendConfirmationFromFile],
    [sendConfirmationWithRetry] and [sendBulkConfirmation] writes a field
    other than the list: whatever the arguments and the state, the storage
    tag, the transporter, the company name, the connection settings and the
    initialization flag are after the call what they were before it.  In
    particular none of these calls makes an uninitialized instance
    initialized. *)
Theorem calls_keep_the_configuration
    (joi : string -> option string)
    (smtp : nat -> SendMailOptions -> Settled string)
    (fs : nat -> string -> Settled string)
    (mongoCount : nat -> MongoQuery -> Settled nat)
    (sqlCount : nat -> SqlWhere -> Settled nat)
    (mongoFind sqlFind : nat -> string -> Settled (list string))
    (regexpError : string -> option string)
    (regexpReplace : string -> string -> string -> string)
    (op : Op) (st : State) :
  sameConfig st
    (snd (run joi smtp fs mongoCount sqlCount mongoFind sqlFind
            regexpError regexpReplace op st)).
Proof.
  eapply run_sameConfig. apply surjective_pairing.
Qed.

(** X10. The start of a Mongo-backed instance, from the constructor to
    Ready: the constructor leaves the connection pending, its success emits
    [onDbConnected] and starts the load, and the success of the load makes
    the instance initialized with exactly the addresses the backend returned,
    each once.  The events along the way are [onDbConnected] and
    [onInitialized], in that order. *)
Theorem mongo_start
    (mailConfig : MailConfig) (opts : WaitlistMailerOptions) (docs : list string) :
  truthy (opt_mongoUri opts) = true ->
  exists st0 st1 st2,
    new_WaitlistMailer storage_db mailConfig (Some opts) = Returned st0
    /\ initialized st0 = false
    /\ pending (mongoConnectSettled (Fulfilled tt)) st0 = true
    /\ pending (mongoFindSettled (Fulfilled docs)) st0 = false
    /\ resume (mongoConnectSettled (Fulfilled tt)) st0 = (tt, st1)
    /\ initialized st1 = false
    /\ pending (mongoFindSettled (Fulfilled docs)) st1 = true
    /\ resume (mongoFindSettled (Fulfilled docs)) st1 = (tt, st2)
    /\ initialized st2 = true
    /\ (forall email, email ∈ waitlist st2 <-> email ∈ docs)
    /\ NoDup (waitlist st2)
    /\ eventsOf (trace st2) = [onDbConnected; onInitialized].
Proof.
  intros Huri. unfold new_WaitlistMailer, usesMongo. simpl. rewrite Huri. simpl.
  eexists. eexists. eexists. split; [reflexivity|].
  split; [reflexivity|]. split; [reflexivity|]. split; [reflexivity|].
  unfold hydrate. unfold_M.
  split; [reflexivity|]. split; [reflexivity|]. split; [reflexivity|].
  split; [reflexivity|]. simpl. split; [reflexivity|].
  split; [|split; [apply hydrate_NoDup; constructor|reflexivity]].
  intros email. rewrite hydrate_elem, elem_of_nil. tauto.
Qed.

Lemma mongo_start_witness :
  exists st0 st2,
    new_WaitlistMailer storage_db Sample.mailConfig (Some Sample.mongoOptions)
    = Returned st0
    /\ initialized st0 = false
    /\ initialized st2 = true
    /\ eventsOf (trace st2) = [onDbConnected; onInitialized].
Proof.
  destruct (mongo_start Sample.mailConfig Sample.mongoOptions ["a@x.com"])
    as (st0 & st1 & st2 & Hn & Hi0 & _ & _ & _ & _ & _ & _ & Hi2 & _ & _ & He).
  - vm_compute. reflexivity.
  - exists st0, st2. by repeat split.
Defined.

(** ** Retries and bulk sends at the edges *)

(** X11. With a negative number of retries the loop body never runs:
    [sendConfirmationWithRetry] returns [false] without a single attempt and
    changes nothing, even for a member and a working transport; over such a
    number [sendBulkConfirmation] returns 0 for every list. *)
Theorem negative_retries_send_nothing
    (smtp : nat -> SendMailOptions -> Settled string)
    (email : string) (subjectTemplate bodyTemplate : string -> string)
    (retries delayMs : Z) (st : State) :
  retries < 0 ->
  sendConfirmationWithRetry smtp email subjectTemplate bodyTemplate retries delayMs st
  = (false, st)
  /\ exists st',
       sendBulkConfirmation smtp subjectTemplate bodyTemplate retries delayMs st
       = (O, st')
       /\ trace st'
          = trace st ++ [Emit (onBulkConfirmationComplete O (length (waitlist st)))].
Proof.
  intros Hneg.
  assert (Hone : forall e s,
             sendConfirmationWithRetry smtp e subjectTemplate bodyTemplate
               retries delayMs s = (false, s)).
  { intros e s. unfold sendConfirmationWithRetry.
    replace (Z.to_nat (retries + 1)) with O by lia. reflexivity. }
  split; [apply Hone|].
  assert (Hloop : forall emails n s,
             bulkLoop smtp emails n subjectTemplate bodyTemplate retries delayMs s
             = (n, s)).
  { induction emails as [|e emails IH]; intros n s; simpl; [reflexivity|].
    unfold_M. rewrite Hone. apply IH. }
  unfold sendBulkConfirmation, getWaitlist, newArray. unfold_M. simpl.
  rewrite lookup_insert_eq. simpl. rewrite Hloop. eexists. split; reflexivity.
Qed.

Lemma negative_retries_send_nothing_witness :
  sendConfirmationWithRetry Sample.alwaysSends "a@x.com" Sample.subjectFn
    Sample.bodyFn (-1) 100 (Sample.withMembers ["a@x.com"] Sample.localAcme)
  = (false, Sample.withMembers ["a@x.com"] Sample.localAcme).
Proof.
  apply (negative_retries_send_nothing Sample.alwaysSends "a@x.com" Sample.subjectFn
           Sample.bodyFn (-1) 100 (Sample.withMembers ["a@x.com"] Sample.localAcme)).
  reflexivity.
Defined.

(** X12. When the first attempt succeeds, [sendConfirmationWithRetry] is
    [sendConfirmation]: same result, same state, no retry event and no
    delay, whatever the number of retries allowed. *)
Theorem retry_first_attempt_succeeds
    (smtp : nat -> SendMailOptions -> Settled string)
    (email : string) (subjectTemplate bodyTemplate : string -> string)
    (retries delayMs : Z) (st : State) :
  0 <= retries ->
  fst (sendConfirmation smtp email subjectTemplate bodyTemplate st) = true ->
  sendConfirmationWithRetry smtp email subjectTemplate bodyTemplate retries delayMs st
  = sendConfirmation smtp email subjectTemplate bodyTemplate st.
Proof.
  intros Hpos Hok. unfold sendConfirmationWithRetry.
  replace (Z.to_nat (retries + 1)) with (S (Z.to_nat retries)) by lia.
  cbn [retryLoop]. unfold bind at 1.
  destruct (sendConfirmation smtp email subjectTemplate bodyTemplate st) as [r st1].
  simpl in Hok. by rewrite Hok.
Qed.

Lemma retry_first_attempt_succeeds_witness :
  sendConfirmationWithRetry Sample.alwaysSends "a@x.com" Sample.subjectFn
    Sample.bodyFn 3 1000 (Sample.withMembers ["a@x.com"] Sample.localAcme)
  = sendConfirmation Sample.alwaysSends "a@x.com" Sample.subjectFn Sample.bodyFn
      (Sample.withMembers ["a@x.com"] Sample.localAcme).
Proof.
  apply (retry_first_attempt_succeeds Sample.alwaysSends "a@x.com" Sample.subjectFn
           Sample.bodyFn 3 1000 (Sample.withMembers ["a@x.com"] Sample.localAcme)).
  - lia.
  - vm_compute. reflexivity.
Defined.




Lemma sendConfirmation_unconfigured smtp email sT bT st :
  truthy (auth_user (options (transporter st))) = false ->
  fst (sendConfirmation smtp email sT bT st) = false
  /\ mailsOf (trace (snd (sendConfirmation smtp email sT bT st))) = mailsOf (trace st).
Proof.
  intros Hu. unfold sendConfirmation, sendMail. unfold_M.
  destruct (JsSet.has email (waitlist st)); simpl; [|by split].
  rewrite Hu. simpl. split; [reflexivity|].
  rewrite mailsOf_app. simpl. by rewrite app_nil_r.
Qed.

Lemma retryLoop_unconfigured smtp todo attempt retries delayMs email sT bT st :
  truthy (auth_user (options (transporter st))) = false ->
  fst (retryLoop smtp todo attempt retries delayMs email sT bT st) = false
  /\ mailsOf (trace (snd (retryLoop smtp todo attempt retries delayMs email sT bT st)))
     = mailsOf (trace st).
Proof.
  revert attempt st. induction todo as [|todo IH]; intros attempt st Hu; simpl;
    [by split|].
  unfold_M.
  destruct (sendConfirmation_unconfigured smtp email sT bT st Hu) as [Hr Hm].
  pose proof (sendConfirmation_grows smtp email sT bT st) as [(_ & _ & Ht & _) _].
  destruct (sendConfirmation smtp email sT bT st) as [r st1]. simpl in *. subst r.
  set (st2 := record (Emit (onEmailRetry email (attempt + 1))) st1).
  assert (Hm2 : mailsOf (trace st2) = mailsOf (trace st)).
  { subst st2. simpl. rewrite mailsOf_app. simpl. by rewrite app_nil_r. }
  destruct (attempt <? retries).
  - destruct (IH (attempt + 1) (record (Sleep delayMs) st2)) as [Hr' Hm'].
    { simpl. by rewrite Ht. }
    split; [exact Hr'|]. rewrite Hm'. simpl. rewrite mailsOf_app. simpl.
    by rewrite app_nil_r.
  - destruct (IH (attempt + 1) st2) as [Hr' Hm'].
    { simpl. by rewrite Ht. }
    split; [exact Hr'|]. by rewrite Hm'.
Qed.

Lemma bulkLoop_unconfigured smtp emails n sT bT retries delayMs st :
  truthy (auth_user (options (transporter st))) = false ->
  fst (bulkLoop smtp emails n sT bT retries delayMs st) = n
  /\ mailsOf (trace (snd (bulkLoop smtp emails n sT bT retries delayMs st)))
     = mailsOf (trace st).
Proof.
  revert n st. induction emails as [|e emails IH]; intros n st Hu; simpl; [by split|].
  unfold_M. unfold sendConfirmationWithRetry.
  destruct (retryLoop_unconfigured smtp (Z.to_nat (retries + 1)) 0 retries delayMs
              e sT bT st Hu) as [Hr Hm].
  pose proof (retryLoop_grows smtp (Z.to_nat (retries + 1)) 0 retries delayMs
                e sT bT st) as [(_ & _ & Ht & _) _].
  destruct (retryLoop smtp _ 0 retries delayMs e sT bT st) as [r st1].
  simpl in *. subst r.
  destruct (IH n st1) as [Hr' Hm']; [by rewrite Ht|].
  split; [exact Hr'|]. by rewrite Hm'.
Qed.

(** X14. While the transporter has no user (the configuration gave none
    or an empty one), nothing is ever handed to the transport:
    [sendConfirmation] and [sendConfirmationWithRetry] return [false] and
    [sendBulkConfirmation] returns 0 with a closing event that counts no
    success, for every list and every number of retries. *)
Theorem unconfigured_transporter_sends_nothing
    (smtp : nat -> SendMailOptions -> Settled string)
    (email : string) (subjectTemplate bodyTemplate : string -> string)
    (retries delayMs : Z) (st : State) :
  truthy (auth_user (options (transporter st))) = false ->
  (exists st1,
     sendConfirmation smtp email subjectTemplate bodyTemplate st = (false, st1)
     /\ mailsOf (trace st1) = mailsOf (trace st))
  /\ (exists st2,
        sendConfirmationWithRetry smtp email subjectTemplate bodyTemplate
          retries delayMs st = (false, st2)
        /\ mailsOf (trace st2) = mailsOf (trace st))
  /\ (exists st3,
        sendBulkConfirmation smtp subjectTemplate bodyTemplate retries delayMs st
        = (O, st3)
        /\ mailsOf (trace st3) = mailsOf (trace st)
        /\ last (trace st3)
           = Some (Emit (onBulkConfirmationComplete O (length (waitlist st))))).
Proof.
  intros Hu. split; [|split].
  - destruct (sendConfirmation_unconfigured smtp email subjectTemplate bodyTemplate
                st Hu) as [Hr Hm].
    destruct (sendConfirmation smtp email subjectTemplate bodyTemplate st) as [r st1].
    simpl in *. subst r. by exists st1.
  - unfold sendConfirmationWithRetry.
    destruct (retryLoop_unconfigured smtp (Z.to_nat (retries + 1)) 0 retries delayMs
                email subjectTemplate bodyTemplate st Hu) as [Hr Hm].
    destruct (retryLoop smtp _ 0 retries delayMs email subjectTemplate bodyTemplate st)
      as [r st2].
    simpl in *. subst r. by exists st2.
  - unfold sendBulkConfirmation, getWaitlist, newArray. unfold_M. simpl.
    rewrite lookup_insert_eq. simpl.
    match goal with |- context [bulkLoop smtp ?l ?n ?a ?b ?c ?d ?s] =>
      destruct (bulkLoop_unconfigured smtp l n a b c d s Hu) as [Hr Hm];
      destruct (bulkLoop smtp l n a b c d s) as [k st1] end.
    simpl in *. subst k. eexists. split; [reflexivity|]. simpl.
    split; [|by rewrite last_snoc].
    rewrite mailsOf_app. simpl. by rewrite app_nil_r.
Qed.

Lemma unconfigured_transporter_sends_nothing_witness :
  exists st3,
    sendBulkConfirmation Sample.alwaysSends Sample.subjectFn Sample.bodyFn 3 1000
      (Sample.withMembers ["a@x.com"; "b@x.com"]
         (Sample.started storage_local Sample.mailConfigNoUser None))
    = (O, st3).
Proof.
  destruct (unconfigured_transporter_sends_nothing Sample.alwaysSends "a@x.com"
              Sample.subjectFn Sample.bodyFn 3 1000
              (Sample.withMembers ["a@x.com"; "b@x.com"]
                 (Sample.started storage_local Sample.mailConfigNoUser None)))
    as (_ & _ & st3 & Hr & _).
  - vm_compute. reflexivity.
  - by exists st3.
Defined.





(** ** Who is written to, and what *)




Lemma includes_false_drop s p :
  JsString.includes s p = false ->
  forall n, JsString.stripPrefix p (JsString.drop n s) = None.
Proof.
  induction s as [|c s IH]; intros H n; rewrite includes_unfold in H.
  - destruct (JsString.stripPrefix p EmptyString) eqn:E; [discriminate|].
    by destruct n.
  - destruct (JsString.stripPrefix p (String c s)) eqn:E; [discriminate|].
    destruct n as [|n]; [exact E|]. cbn [JsString.drop]. by apply IH.
Qed.

Lemma replace_literal_absent p repl s :
  JsString.includes s p = false ->
  JsString.replace (JsString.literal p) repl s = s.
Proof.
  intros H. unfold JsString.replace. apply replaceFrom_no_match.
  intros n. unfold JsString.literal. by rewrite includes_false_drop.
Qed.

Lemma replace_token_absent key repl s :
  JsString.includes s "{{" = false ->
  JsString.replace (JsString.token key) repl s = s.
Proof.
  intros H. unfold JsString.replace. apply replaceFrom_no_match.
  intros n. unfold JsString.token. by rewrite includes_false_drop.
Qed.

(** X17. The mail [sendConfirmation] builds for a member: it goes to the
    address, its subject is what the subject template gives, its sender is
    the quoted company name followed by the user in angle brackets, and its
    body is what the body template gives with the marker [[Company Name]]
    replaced.  A body without the marker is sent as it is; a body that
    starts with the marker starts with the company name instead, when that
    name holds no dollar sign.  The call returns [true] exactly when the
    transport accepts the mail, and then emits [onEmailSent]; otherwise it
    emits [onError]. *)
Theorem sendConfirmation_mail
    (smtp : nat -> SendMailOptions -> Settled string)
    (email user0 : string) (subjectTemplate bodyTemplate : string -> string)
    (st : State) :
  JsSet.has email (waitlist st) = true ->
  auth_user (options (transporter st)) = Some user0 ->
  user0 <> EmptyString ->
  exists m st',
    sendConfirmation smtp email subjectTemplate bodyTemplate st
    = (match smtp (occurrences isSendMail st) m with
       | Fulfilled _ => true
       | Rejected _ => false
       end, st')
    /\ trace st'
       = trace st
         ++ [TransportSendMail m;
             Emit (match smtp (occurrences isSendMail st) m with
                   | Fulfilled info => onEmailSent email info
                   | Rejected err => onError email "sendMail" err
                   end)]
    /\ to m = email
    /\ subject m = subjectTemplate email
    /\ from m = dquote +:+ companyName st +:+ dquote +:+ " <" +:+ user0 +:+ ">"
    /\ html m
       = JsString.replace (JsString.literal "[Company Name]") (companyName st)
           (bodyTemplate email)
    /\ (JsString.includes (bodyTemplate email) "[Company Name]" = false ->
        html m = bodyTemplate email)
    /\ (JsString.includes (companyName st) "$" = false ->
        forall rest,
          bodyTemplate email = "[Company Name]" +:+ rest ->
          html m
          = companyName st
            +:+ JsString.replace (JsString.literal "[Company Name]")
                  (companyName st) rest).
Proof.
  intros Hin Hu Hne. unfold sendConfirmation, sendMail. unfold_M.
  rewrite Hin. simpl. rewrite Hu. simpl.
  assert (Ht : String.eqb user0 EmptyString = false) by (by apply String.eqb_neq).
  rewrite Ht. simpl.
  match goal with |- context [smtp ?n ?m0] =>
    exists m0,
      (record (Emit (match smtp n m0 with
                     | Fulfilled info => onEmailSent email info
                     | Rejected err => onError email "sendMail" err
                     end))
         (record (TransportSendMail m0) st));
    destruct (smtp n m0)
  end.
  all: split; [reflexivity|]; split; [simpl; by rewrite <- app_assoc|].
  all: simpl; repeat split.
  all: try (intros Habs; by apply replace_literal_absent).
  all: intros Hplain rest ->;
    change ("[Company Name]" +:+ rest)
      with (String "[" ("Company Name]" +:+ rest));
    rewrite (replace_plain_match _ _ _ _ 13 Hplain); [reflexivity|];
    unfold JsString.literal;
    change (String "[" ("Company Name]" +:+ rest)) with ("[Company Name]" +:+ rest);
    by rewrite stripPrefix_app.
Qed.

Lemma sendConfirmation_mail_witness :
  exists m st',
    sendConfirmation Sample.alwaysSends "u@u.com" (fun _ => "Hi")
      (fun _ => "[Company Name] welcomes you")
      (Sample.withMembers ["u@u.com"] Sample.localAcme) = (true, st')
    /\ html m = "Acme welcomes you".
Proof.
  destruct (sendConfirmation_mail Sample.alwaysSends "u@u.com" "test@example.com"
              (fun _ => "Hi") (fun _ => "[Company Name] welcomes you")
              (Sample.withMembers ["u@u.com"] Sample.localAcme))
    as (m & st' & Hr & _ & _ & _ & _ & _ & _ & Hh).
  - vm_compute. reflexivity.
  - reflexivity.
  - discriminate.
  - exists m, st'. split; [exact Hr|].
    rewrite (Hh eq_refl " welcomes you" eq_refl). vm_compute. reflexivity.
Defined.

Lemma substituteAll_absent vars s :
  JsString.includes s "{{" = false -> substituteAll vars s = s.
Proof.
  intros H. induction vars as [|[k v] vars IH]; [reflexivity|].
  cbn [substituteAll]. by rewrite replace_token_absent.
Qed.

(** An identifier is no array index: it does not start with a digit. *)
Lemma identStart_not_digit c :
  JsString.isIdentStart c = true -> JsString.isDigit c = false.
Proof.
  destruct c as [[] [] [] [] [] [] [] []]; vm_compute; intros H;
    first [reflexivity|discriminate].
Qed.

Lemma identifier_not_index k :
  JsString.isIdentifier k = true -> arrayIndex k = None.
Proof.
  destruct k as [|c r]; [reflexivity|]. simpl.
  intros H. apply andb_true_iff in H as [Hc _].
  apply identStart_not_digit in Hc.
  unfold arrayIndex. cbn [parseDigits]. rewrite Hc.
  by destruct (_ && _).
Qed.

Lemma objectReplace_keys k v o : map fst (objectReplace k v o) = map fst o.
Proof.
  induction o as [|[k2 v2] o IH]; simpl; [reflexivity|].
  destruct (String.eqb k k2); simpl; [reflexivity|by rewrite IH].
Qed.

(** Setting a key that is no array index: the keys stay as they are, or
    the new key goes to the end. *)
Lemma objectSet_keys k v o :
  arrayIndex k = None ->
  map fst (objectSet k v o) = map fst o
  \/ map fst (objectSet k v o) = map fst o ++ [k].
Proof.
  intros Hk. unfold objectSet. rewrite Hk.
  destruct (objectHas k o).
  - left. apply objectReplace_keys.
  - right. by rewrite map_app.
Qed.

Lemma forallb_keys (p : string -> bool) (o : list (string * string)) :
  forallb (fun kv => p (fst kv)) o = forallb p (map fst o).
Proof. induction o as [|[k v] o IH]; simpl; [reflexivity|by rewrite IH]. Qed.

Lemma objectSet_identifiers k v o :
  JsString.isIdentifier k = true ->
  forallb (fun kv => JsString.isIdentifier (fst kv)) o = true ->
  forallb (fun kv => JsString.isIdentifier (fst kv)) (objectSet k v o) = true.
Proof.
  intros Hk Ho. rewrite forallb_keys in *.
  destruct (objectSet_keys k v o (identifier_not_index k Hk)) as [->| ->];
    [exact Ho|].
  rewrite forallb_app, Ho. simpl. by rewrite Hk.
Qed.

Lemma spread_identifiers more base :
  forallb (fun kv => JsString.isIdentifier (fst kv)) more = true ->
  forallb (fun kv => JsString.isIdentifier (fst kv)) base = true ->
  forallb (fun kv => JsString.isIdentifier (fst kv)) (spread base more) = true.
Proof.
  revert base. induction more as [|[k v] more IH]; intros base Hm Hb; simpl;
    [exact Hb|].
  simpl in Hm. apply andb_true_iff in Hm as [Hk Hm].
  apply IH; [exact Hm|]. by apply objectSet_identifiers.
Qed.

(** With identifier keys the loop is the modelled one and does not fail. *)
Lemma substituteEach_identifiers regexpError regexpReplace vars s :
  forallb (fun kv => JsString.isIdentifier (fst kv)) vars = true ->
  substituteEach regexpError regexpReplace vars s = Fulfilled (substituteAll vars s).
Proof.
  revert s. induction vars as [|[k v] vars IH]; intros s Hv; [reflexivity|].
  simpl in Hv. apply andb_true_iff in Hv as [Hk Hv].
  cbn [substituteEach substituteAll]. unfold substituteKey. rewrite Hk.
  by apply IH.
Qed.

(** X18. A template file that holds no pair of opening braces is sent as
    it is, whatever the replacements are: [sendConfirmationFromFile] reads
    the file and hands its content unchanged to [sendMail]. *)
Theorem template_without_tokens
    (smtp : nat -> SendMailOptions -> Settled string)
    (fs : nat -> string -> Settled string)
    (regexpError : string -> option string)
    (regexpReplace : string -> string -> string -> string)
    (email : string) (subjectTemplate : string -> string)
    (templateFilePath content : string) (replacements : list (string * string))
    (st : State) :
  JsSet.has email (waitlist st) = true ->
  fs (occurrences isReadFile st) templateFilePath = Fulfilled content ->
  JsString.includes content "{{" = false ->
  forallb (fun kv => JsString.isIdentifier (fst kv)) replacements = true ->
  sendConfirmationFromFile smtp fs regexpError regexpReplace email
    subjectTemplate templateFilePath replacements st
  = sendMail smtp email (subjectTemplate email) content
      (record (ReadFile templateFilePath) st).
Proof.
  intros Hin Hfs Hno Hkeys. unfold sendConfirmationFromFile.
  rewrite Hin, Hfs. simpl.
  rewrite substituteEach_identifiers
    by (apply spread_identifiers; [exact Hkeys|reflexivity]).
  by rewrite substituteAll_absent.
Qed.

Lemma template_without_tokens_witness :
  sendConfirmationFromFile Sample.alwaysSends (Sample.fileWith "<p>Welcome</p>")
    Sample.regexpError Sample.regexpReplace
    "u@x.com" Sample.subjectFn "welcome.html" [("customMessage", "Hi")]
    (Sample.withMembers ["u@x.com"] Sample.localAcme)
  = sendMail Sample.alwaysSends "u@x.com" (Sample.subjectFn "u@x.com")
      "<p>Welcome</p>"
      (record (ReadFile "welcome.html")
         (Sample.withMembers ["u@x.com"] Sample.localAcme)).
Proof.
  apply (template_without_tokens Sample.alwaysSends (Sample.fileWith "<p>Welcome</p>")
           Sample.regexpError Sample.regexpReplace "u@x.com" Sample.subjectFn
           "welcome.html" "<p>Welcome</p>"
           [("customMessage", "Hi")]
           (Sample.withMembers ["u@x.com"] Sample.localAcme)).
  - vm_compute. reflexivity.
  - reflexivity.
  - vm_compute. reflexivity.
  - vm_compute. reflexivity.
Defined.

(** ** The template variables *)

Lemma objectGet_objectReplace k k' v o :
  objectHas k' o = true ->
  objectGet k (objectReplace k' v o)
  = if String.eqb k k' then Some v else objectGet k o.
Proof.
  induction o as [|[k2 v2] o IH]; simpl; [discriminate|].
  destruct (String.eqb_spec k' k2) as [->|Hne]; simpl.
  - intros _. by destruct (String.eqb k k2).
  - intros Ho. rewrite (IH Ho).
    destruct (String.eqb_spec k k2) as [->|Hne2]; [|reflexivity].
    destruct (String.eqb_spec k2 k') as [->|_]; [contradiction|reflexivity].
Qed.

Lemma objectGet_None k (o : list (string * string)) :
  objectHas k o = false -> objectGet k o = None.
Proof.
  induction o as [|[k2 v2] o IH]; simpl; [reflexivity|].
  destruct (String.eqb k k2); simpl; [discriminate|exact IH].
Qed.

Lemma objectHas_elem k (o : list (string * string)) :
  objectHas k o = true <-> k ∈ map fst o.
Proof.
  induction o as [|[k2 v2] o IH]; simpl.
  - split; [discriminate|]. intros H. by apply elem_of_nil in H.
  - rewrite elem_of_cons, <- IH.
    destruct (String.eqb_spec k k2) as [->|Hne]; simpl; [tauto|].
    split; [tauto|]. intros [H|H]; [contradiction|exact H].
Qed.

Lemma objectGet_app k (o1 o2 : list (string * string)) :
  objectGet k (o1 ++ o2)
  = match objectGet k o1 with Some v => Some v | None => objectGet k o2 end.
Proof.
  induction o1 as [|[k2 v2] o1 IH]; simpl; [reflexivity|].
  by destruct (String.eqb k k2).
Qed.

Lemma objectGet_objectInsertIndex k n k' v o :
  objectHas k' o = false ->
  objectGet k (objectInsertIndex n k' v o)
  = if String.eqb k k' then Some v else objectGet k o.
Proof.
  induction o as [|[k2 v2] o IH]; simpl; [intros _; by destruct (String.eqb k k')|].
  destruct (String.eqb_spec k' k2) as [->|Hne]; simpl; [discriminate|].
  intros Ho.
  destruct (arrayIndex k2) as [n2|]; [destruct (n2 <? n)|]; simpl;
    try (by destruct (String.eqb k k')).
  rewrite (IH Ho).
  destruct (String.eqb_spec k k2) as [->|_]; [|reflexivity].
  destruct (String.eqb_spec k2 k') as [->|_]; [contradiction|reflexivity].
Qed.

(** Reading after writing, whatever the kind of key. *)
Lemma objectGet_objectSet k k' v o :
  objectGet k (objectSet k' v o) = if String.eqb k k' then Some v else objectGet k o.
Proof.
  unfold objectSet. destruct (objectHas k' o) eqn:Ho.
  - by apply objectGet_objectReplace.
  - destruct (arrayIndex k') as [n|].
    + by apply objectGet_objectInsertIndex.
    + rewrite objectGet_app. simpl.
      destruct (String.eqb_spec k k') as [->|_].
      * by rewrite objectGet_None.
      * by destruct (objectGet k o).
Qed.

(** X19. The object the template is filled from: an explicit replacement
    overrides the default of the same key and a key without explicit
    replacement keeps its default, whatever the keys are.  When no key of
    the replacements is an array index, the keys the object had before the
    spread stay at the front in their order, so that [email] and
    [companyName] are substituted first; a replacement whose key is an array
    index is listed, and so substituted, before them. *)
Theorem spread_lookup (k : string) (base more : list (string * string)) :
  NoDup (map fst more) ->
  objectGet k (spread base more)
  = match objectGet k more with
    | Some v => Some v
    | None => objectGet k base
    end
  /\ (forallb (fun kv => bool_decide (arrayIndex (fst kv) = None)) more = true ->
      map fst base `prefix_of` map fst (spread base more))
  /\ (forall n v,
        arrayIndex k = Some n ->
        more = [(k, v)] ->
        forallb (fun kv => bool_decide (arrayIndex (fst kv) = None)) base = true ->
        spread base more = (k, v) :: base).
Proof.
  intros Hnd. split; [|split].
  - revert base Hnd. induction more as [|[k1 v1] more IH]; intros base Hnd; simpl.
    + reflexivity.
    + apply NoDup_cons in Hnd as [Hk1 Hnd].
      rewrite (IH (objectSet k1 v1 base) Hnd), objectGet_objectSet.
      destruct (String.eqb_spec k k1) as [->|Hne]; [|reflexivity].
      rewrite objectGet_None; [reflexivity|].
      apply not_true_is_false. by rewrite objectHas_elem.
  - clear Hnd. revert base.
    induction more as [|[k1 v1] more IH]; intros base Hm; simpl; [done|].
    simpl in Hm. apply andb_true_iff in Hm as [Hk1 Hm].
    apply bool_decide_eq_true in Hk1.
    etrans; [|exact (IH (objectSet k1 v1 base) Hm)].
    destruct (objectSet_keys k1 v1 base Hk1) as [->| ->];
      [done|by apply prefix_app_r].
  - intros n v Hk -> Hb. simpl. unfold objectSet.
    assert (Hhas : objectHas k base = false).
    { apply not_true_is_false. intros Hhas.
      apply existsb_exists in Hhas as ([k2 v2] & Hin & Heq).
      apply String.eqb_eq in Heq. simpl in Heq. subst k2.
      rewrite forallb_forall in Hb. specialize (Hb _ Hin).
      apply bool_decide_eq_true in Hb. simpl in Hb. congruence. }
    rewrite Hhas, Hk. destruct base as [|[k2 v2] base]; [reflexivity|].
    simpl in Hb. apply andb_true_iff in Hb as [Hk2 _].
    apply bool_decide_eq_true in Hk2. simpl in Hk2.
    cbn [objectInsertIndex]. by rewrite Hk2.
Qed.

Lemma spread_lookup_witness :
  objectGet "companyName"
    (spread [("email", "u@x.com"); ("companyName", "Acme")]
       [("customMessage", "Hi"); ("companyName", "Zed")])
  = Some "Zed"
  /\ map fst [("email", "u@x.com"); ("companyName", "Acme")]
     `prefix_of` map fst (spread [("email", "u@x.com"); ("companyName", "Acme")]
                            [("customMessage", "Hi"); ("companyName", "Zed")])
  /\ spread [("email", "u@x.com"); ("companyName", "Acme")] [("7", "seven")]
     = [("7", "seven"); ("email", "u@x.com"); ("companyName", "Acme")].
Proof.
  destruct (spread_lookup "companyName"
              [("email", "u@x.com"); ("companyName", "Acme")]
              [("customMessage", "Hi"); ("companyName", "Zed")]) as (H & Hpre & _).
  { simpl. apply (bool_decide_unpack _). vm_compute. exact I. }
  destruct (spread_lookup "7"
              [("email", "u@x.com"); ("companyName", "Acme")]
              [("7", "seven")]) as (_ & _ & Hidx).
  { simpl. apply (bool_decide_unpack _). vm_compute. exact I. }
  split; [rewrite H; reflexivity|].
  split; [apply Hpre; vm_compute; reflexivity|].
  apply (Hidx 7 "seven"); vm_compute; reflexivity.
Defined.

Lemma token_no_brace key c r :
  c <> "{"%char -> JsString.token key (String c r) = None.
Proof.
  intros Hc. unfold JsString.token.
  change (JsString.stripPrefix "{{" (String c r))
    with (if Ascii.eqb "{" c then JsString.stripPrefix "{" r else None).
  destruct (Ascii.eqb_spec "{"%char c) as [<-|_]; [contradiction|reflexivity].
Qed.

(** X20. Substituting one key in a template: the text in front of a token,
    if it holds no opening brace, is kept; the token, with any white space
    around the key inside the braces, is replaced by the value when the
    value holds no dollar sign; and the substitution goes on in the same way
    behind the token. *)
Theorem replace_token_in_text key value front ws1 ws2 rest :
  JsString.isIdentifier key = true ->
  JsString.includes value "$" = false ->
  JsString.includes front "{" = false ->
  JsString.allChars JsString.isSpace ws1 = true ->
  JsString.allChars JsString.isSpace ws2 = true ->
  JsString.replace (JsString.token key) value
    (front +:+ tokenText ws1 key ws2 +:+ rest)
  = front +:+ value +:+ JsString.replace (JsString.token key) value rest.
Proof.
  intros Hkey Hval Hfront Hws1 Hws2.
  induction front as [|c front IH].
  - change (EmptyString +:+ tokenText ws1 key ws2 +:+ rest)
      with (tokenText ws1 key ws2 +:+ rest).
    by apply replace_token_head.
  - rewrite includes_unfold in Hfront.
    change (JsString.stripPrefix "{" (String c front))
      with (if Ascii.eqb "{" c then Some front else None) in Hfront.
    destruct (Ascii.eqb_spec "{"%char c) as [<-|Hc]; [discriminate|].
    rewrite !append_cons.
    rewrite replace_plain_no_match;
      [|exact Hval|apply token_no_brace; congruence].
    f_equal. by apply IH.
Qed.

Lemma replace_token_in_text_witness :
  JsString.replace (JsString.token "email") "u@x.com"
    ("Dear " +:+ tokenText " " "email" "  " +:+ ", welcome")
  = "Dear " +:+ "u@x.com"
    +:+ JsString.replace (JsString.token "email") "u@x.com" ", welcome".
Proof.
  apply (replace_token_in_text "email" "u@x.com" "Dear " " " "  " ", welcome");
    vm_compute; reflexivity.
Defined.

(** ** Witnesses of earlier lemmas *)

Lemma sendConfirmationFromFile_unreadable_witness :
  sendConfirmationFromFile Sample.alwaysSends Sample.noFile
    Sample.regexpError Sample.regexpReplace "u@x.com"
    Sample.subjectFn "missing.html" []
    (Sample.withMembers ["u@x.com"] Sample.localAcme)
  = (false,
     record (Emit (onError "u@x.com" "sendConfirmationFromFile" "ENOENT"))
       (record (ReadFile "missing.html")
          (Sample.withMembers ["u@x.com"] Sample.localAcme))).
Proof.
  apply (sendConfirmationFromFile_unreadable Sample.alwaysSends Sample.noFile
           Sample.regexpError Sample.regexpReplace "u@x.com" Sample.subjectFn "missing.html" []
           (Sample.withMembers ["u@x.com"] Sample.localAcme) "ENOENT").
  - vm_compute. reflexivity.
  - reflexivity.
Defined.

Lemma reachable_NoDup_witness :
  let st :=
    snd (addEmail Sample.joi "b@x.com"
           (Sample.loaded ["a@x.com"; "b@x.com"; "b@x.com"]
              (snd (addEmail Sample.joi "a@x.com" Sample.connected)))) in
  waitlist st = ["a@x.com"; "b@x.com"] /\ NoDup (waitlist st).
Proof.
  cbn zeta. split; [vm_compute; reflexivity|].
  apply (reachable_NoDup Sample.joi Sample.alwaysSends Sample.noFile
           Sample.noCount Sample.noCount Sample.noFind Sample.noFind
           Sample.regexpError Sample.regexpReplace).
  apply (reach_call _ _ _ _ _ _ _ _ _ (op_addEmail "b@x.com")
           (Sample.loaded ["a@x.com"; "b@x.com"; "b@x.com"]
              (snd (addEmail Sample.joi "a@x.com" Sample.connected)))
           (VBool false));
    [|vm_compute; reflexivity].
  apply (reach_callback _ _ _ _ _ _ _ _ _
           (mongoFindSettled (Fulfilled ["a@x.com"; "b@x.com"; "b@x.com"]))
           (snd (addEmail Sample.joi "a@x.com" Sample.connected)));
    [|vm_compute; reflexivity|vm_compute; reflexivity].
  apply (reach_call _ _ _ _ _ _ _ _ _ (op_addEmail "a@x.com") Sample.connected
           (VBool true));
    [|vm_compute; reflexivity].
  apply (reach_callback _ _ _ _ _ _ _ _ _ (mongoConnectSettled (Fulfilled tt))
           Sample.connecting);
    [|vm_compute; reflexivity|vm_compute; reflexivity].
  apply (reach_new _ _ _ _ _ _ _ _ _ storage_db Sample.mailConfig
           (Some Sample.mongoOptions)).
  reflexivity.
Defined.

Lemma sendConfirmationWithRetry_succeeded_witness :
  exists (failed : nat) tail,
    trace (snd (sendConfirmationWithRetry Sample.failsOnce "retry@test.com"
                  Sample.subjectFn Sample.bodyFn 1 100
                  (Sample.withMembers ["retry@test.com"] Sample.localAcme)))
    = trace (Sample.withMembers ["retry@test.com"] Sample.localAcme) ++ tail
    /\ Z.of_nat failed <= 1
    /\ sentCount tail = 1%nat
    /\ retriesOf tail
       = map (fun i => ("retry@test.com", 1 + Z.of_nat i)) (seq 0 failed)
    /\ sleepsOf tail = replicate failed 100
    /\ (length (mailsOf tail) <= failed + 1)%nat.
Proof.
  apply (sendConfirmationWithRetry_succeeded Sample.failsOnce "retry@test.com"
           Sample.subjectFn Sample.bodyFn 1 100
           (Sample.withMembers ["retry@test.com"] Sample.localAcme)).
  vm_compute. reflexivity.
Defined.

(** ** clearWaitlist *)

(** X23. [clearWaitlist] empties the set, emits [onWaitlistCleared] and
    asks the backend of the storage to delete everything.  Afterwards
    nobody is on the list: removing or writing to any address fails without
    effect, and every address the validator accepts can be added again. *)
Theorem clearWaitlist_empties
    (joi : string -> option string)
    (smtp : nat -> SendMailOptions -> Settled string)
    (subjectTemplate bodyTemplate : string -> string) (st : State) :
  exists st',
    clearWaitlist st = (tt, st')
    /\ waitlist st' = []
    /\ trace st'
       = trace st ++ Emit onWaitlistCleared :: persisted MongoDeleteMany SqlDestroyAll st
    /\ sameConfig st st'
    /\ (forall email,
          removeEmail email st' = (false, st')
          /\ sendConfirmation smtp email subjectTemplate bodyTemplate st' = (false, st')
          /\ (joi email = None -> fst (addEmail joi email st') = true)).
Proof.
  unfold clearWaitlist. unfold_M. rewrite persist_persisted.
  eexists. split; [reflexivity|].
  rewrite records_waitlist, records_trace. simpl.
  split; [reflexivity|]. split; [by rewrite <- app_assoc|].
  split.
  { match goal with |- sameConfig _ (foldl _ ?s ?l) =>
      destruct (records_config l s) as (?&?&?&?&?&?) end.
    by repeat split. }
  intros email.
  assert (Habs : forall s : State, waitlist s = [] -> JsSet.has email (waitlist s) = false).
  { intros s ->. reflexivity. }
  match goal with |- context [removeEmail email ?s] =>
    assert (Hw : waitlist s = []) by (by rewrite records_waitlist);
    specialize (Habs s Hw)
  end.
  split; [|split].
  - unfold removeEmail. unfold_M. by rewrite Habs.
  - unfold sendConfirmation. unfold_M. by rewrite Habs.
  - intros Hj. unfold addEmail, validateEmailFormat. rewrite Hj. simpl.
    unfold_M. rewrite Habs. simpl. by destruct (persist _ _ _).
Qed.

Lemma clearWaitlist_empties_witness :
  exists st',
    clearWaitlist (Sample.withMembers ["a@x.com"; "b@x.com"] Sample.localAcme)
    = (tt, st')
    /\ waitlist st' = []
    /\ fst (addEmail Sample.joi "a@x.com" st') = true.
Proof.
  destruct (clearWaitlist_empties Sample.joi Sample.alwaysSends Sample.subjectFn
              Sample.bodyFn
              (Sample.withMembers ["a@x.com"; "b@x.com"] Sample.localAcme))
    as (st' & Hr & Hw & _ & _ & Hall).
  exists st'. split; [exact Hr|]. split; [exact Hw|].
  destruct (Hall "a@x.com") as (_ & _ & Hadd). apply Hadd.
  vm_compute. reflexivity.
Defined.
